(** * QR utilities: Wi-Fi payload codec, content validation, payload classifier

    A shallow embedding of

    - [QR-code Genrator/src/utils/wifi.ts]
      ([generateWiFiPayload], [escapeWiFiString], [validateWiFiConfig]),
    - [QR-code Reader/src/utils/qrcode.ts] ([validateQRContent]),
    - [QR-code Reader/src/components/QRReader.tsx] ([parseQRData]),

    together with the fragment of ECMAScript strings and regular
    expressions those functions rely on. *)

From Stdlib Require Import String Ascii NArith Arith Bool Lia List.
Import ListNotations.

Set Implicit Arguments.

(* ================================================================== *)
(** ** ECMAScript strings *)

(** A string value is a finite sequence of UTF-16 code units; [length],
    [startsWith], [trim] and the regular expressions of the sources (none
    has the [u] flag) all work on code units.  A code unit is a number
    below 65536; nothing below depends on that bound. *)

Module JS.

Definition code_unit := N.
Definition jsstring := list code_unit.

(** String literals of the sources (all of them ASCII). *)
Definition str (s : string) : jsstring :=
  map N_of_ascii (list_ascii_of_string s).

Definition chr (a : ascii) : code_unit := N_of_ascii a.

Arguments str s%_string.
Arguments chr a%_char.

Fixpoint eqb (a b : jsstring) : bool :=
  match a, b with
  | [], [] => true
  | x :: a', y :: b' => N.eqb x y && eqb a' b'
  | _, _ => false
  end.

(** [s.startsWith(p)] *)
Fixpoint startsWith (s p : jsstring) {struct p} : bool :=
  match p, s with
  | [], _ => true
  | y :: p', x :: s' => N.eqb x y && startsWith s' p'
  | _ :: _, [] => false
  end.

(** WhiteSpace and LineTerminator code points: what [trim] strips and what
    the class escape [\s] matches. *)
Definition isWhiteSpace (c : code_unit) : bool :=
  existsb (N.eqb c)
    [9; 10; 11; 12; 13; 32; 160; 5760; 8232; 8233; 8239; 8287; 12288; 65279]%N
  || ((8192 <=? c) && (c <=? 8202))%N.

Fixpoint trimStart (s : jsstring) : jsstring :=
  match s with
  | c :: s' => if isWhiteSpace c then trimStart s' else s
  | [] => []
  end.

Definition trimEnd (s : jsstring) : jsstring := rev (trimStart (rev s)).

(** [s.trim()] *)
Definition trim (s : jsstring) : jsstring := trimEnd (trimStart s).

(** ToBoolean on a string: only the empty string is falsy. *)
Definition truthy (s : jsstring) : bool :=
  match s with [] => false | _ :: _ => true end.

(** [s.replace(/c/g, rep)] for a pattern that is one literal code unit and
    a replacement text without [$]: every occurrence is replaced, left to
    right. *)
Definition replaceAll (c : code_unit) (rep s : jsstring) : jsstring :=
  flat_map (fun x => if N.eqb x c then rep else [x]) s.

(** [x || d] where [x] is a string or [undefined]. *)
Definition orElse (x : option jsstring) (d : jsstring) : jsstring :=
  match x with
  | Some v => if truthy v then v else d
  | None => d
  end.

End JS.

Import JS.

(* ================================================================== *)
(** ** Regular expressions *)

(** The patterns of [parseQRData] use literal characters, character
    classes, the quantifiers [*], [+] and [?] (always greedy, always on a
    single-character atom), capture groups and the assertions [^] and [$].
    The matcher is the backtracking matcher of the language, written with
    lists of successes: [run] returns every way to match, most preferred
    first, and [search] takes the first one at the leftmost start index. *)

Module RegExp.

Inductive class_item :=
| One (c : code_unit)            (* a single character *)
| Range (lo hi : code_unit)      (* lo-hi *)
| Space.                         (* \s *)

Inductive atom :=
| Lit (c : code_unit)
| Class (items : list class_item)        (* [...]  *)
| NegClass (items : list class_item).    (* [^...] *)

Inductive regex :=
| Chars (p : jsstring)           (* a run of literal characters *)
| Atom (a : atom)
| Star (a : atom)                (* a*  *)
| Plus (a : atom)                (* a+  *)
| Opt (a : atom)                 (* a?  *)
| Group (n : nat) (r : regex)    (* the n-th pair of parentheses *)
| Bol                            (* ^ *)
| Eol                            (* $ *)
| Cat (r1 r2 : regex).

(** Canonicalize of the [i] flag (no [u] flag): the upper-case mapping,
    which on ASCII touches a-z only; a code unit from 128 on never
    canonicalizes to an ASCII one, so against the ASCII characters of the
    patterns here it can be left alone. *)
Definition canonicalize (c : code_unit) : code_unit :=
  if ((97 <=? c) && (c <=? 122))%N then (c - 32)%N else c.

Definition same_char (ic : bool) (a b : code_unit) : bool :=
  if ic then N.eqb (canonicalize a) (canonicalize b) else N.eqb a b.

Definition in_item (x : code_unit) (it : class_item) : bool :=
  match it with
  | One c => N.eqb x c
  | Range lo hi => ((lo <=? x) && (x <=? hi))%N
  | Space => isWhiteSpace x
  end.

(** No class occurs in a pattern with the [i] flag, so class membership is
    taken without case folding. *)
Definition accepts (ic : bool) (a : atom) (x : code_unit) : bool :=
  match a with
  | Lit c => same_char ic x c
  | Class items => existsb (in_item x) items
  | NegClass items => negb (existsb (in_item x) items)
  end.

Definition captures := list (nat * jsstring).

Record state := mkState {
  pos : nat;            (* index of the next character *)
  rest : jsstring;      (* input from [pos] on *)
  caps : captures       (* groups closed so far, latest first *)
}.

Fixpoint strip (ic : bool) (p s : jsstring) {struct p} : option jsstring :=
  match p, s with
  | [], _ => Some s
  | y :: p', x :: s' => if same_char ic x y then strip ic p' s' else None
  | _ :: _, [] => None
  end.

(** Greedy repetition: the longest run first, then each shorter one. *)
Fixpoint star (ok : code_unit -> bool) (p : nat) (r : jsstring) (cs : captures)
  : list state :=
  match r with
  | x :: r' =>
      if ok x then star ok (S p) r' cs ++ [mkState p r cs]
      else [mkState p r cs]
  | [] => [mkState p r cs]
  end.

Definition one (ok : code_unit -> bool) (st : state) : list state :=
  match rest st with
  | x :: r' => if ok x then [mkState (S (pos st)) r' (caps st)] else []
  | [] => []
  end.

Fixpoint run (ic : bool) (r : regex) (st : state) : list state :=
  match r with
  | Chars p =>
      match strip ic p (rest st) with
      | Some r' => [mkState (pos st + List.length p) r' (caps st)]
      | None => []
      end
  | Atom a => one (accepts ic a) st
  | Star a => star (accepts ic a) (pos st) (rest st) (caps st)
  | Plus a =>
      flat_map (fun st' => star (accepts ic a) (pos st') (rest st') (caps st'))
               (one (accepts ic a) st)
  | Opt a => one (accepts ic a) st ++ [st]
  | Group n r' =>
      map (fun st' =>
             mkState (pos st') (rest st')
                     ((n, firstn (pos st' - pos st) (rest st)) :: caps st'))
          (run ic r' st)
  | Bol => if Nat.eqb (pos st) 0 then [st] else []
  | Eol => match rest st with [] => [st] | _ :: _ => [] end
  | Cat r1 r2 => flat_map (run ic r2) (run ic r1 st)
  end.

(** A compiled pattern: its body and its [i] flag. *)
Record RegExp := mkRegExp { body : regex; ignoreCase : bool }.

(** The match object: [index], and the numbered groups. *)
Record match_result := mkMatch { index : nat; groups : captures }.

(** Leftmost start index first; at each index the preferred match. *)
Fixpoint search (re : RegExp) (p : nat) (s : jsstring) : option match_result :=
  match run (ignoreCase re) (body re) (mkState p s []) with
  | st :: _ => Some (mkMatch p (caps st))
  | [] =>
      match s with
      | [] => None
      | _ :: s' => search re (S p) s'
      end
  end.

(** [s.match(re)] for a pattern without the [g] flag: the match object or
    [null]. *)
Definition match_ (s : jsstring) (re : RegExp) : option match_result :=
  search re 0 s.

(** [m[n]] *)
Definition group (m : match_result) (n : nat) : option jsstring :=
  match find (fun e => Nat.eqb (fst e) n) (groups m) with
  | Some e => Some (snd e)
  | None => None
  end.

(** Truthiness of [s.match(re)]. *)
Definition matches (s : jsstring) (re : RegExp) : bool :=
  match match_ s re with Some _ => true | None => false end.

Declare Scope regex_scope.
Delimit Scope regex_scope with re.
Infix "⋅" := Cat (at level 60, right associativity) : regex_scope.

End RegExp.

Import RegExp.

(* ================================================================== *)
(** ** [wifi.ts] *)

Module Wifi.

(** ['WPA' | 'WEP' | 'nopass'] *)
Inductive Security := WPA | WEP | nopass.

Definition security_str (s : Security) : jsstring :=
  match s with
  | WPA => str "WPA"
  | WEP => str "WEP"
  | nopass => str "nopass"
  end.

Record WiFiConfig := mkWiFiConfig {
  ssid : jsstring;
  password : jsstring;
  security : Security;
  hidden : bool
}.

Definition backslash : code_unit := 92%N.
Definition dquote : code_unit := 34%N.

(** Five global replacements, each over the result of the one before. *)
Definition escapeWiFiString (s : jsstring) : jsstring :=
  let s := replaceAll backslash [backslash; backslash] s in
  let s := replaceAll (chr ",") [backslash; chr ","] s in
  let s := replaceAll (chr ";") [backslash; chr ";"] s in
  let s := replaceAll dquote [backslash; dquote] s in
  replaceAll (chr ":") [backslash; chr ":"] s.

Definition generateWiFiPayload (config : WiFiConfig) : jsstring :=
  let escapedSSID := escapeWiFiString (ssid config) in
  let escapedPassword := escapeWiFiString (password config) in
  str "WIFI:T:" ++ security_str (security config)
    ++ str ";S:" ++ escapedSSID
    ++ str ";P:" ++ escapedPassword
    ++ str ";H:" ++ (if hidden config then str "true" else str "false")
    ++ str ";;".

Record Validation := mkValidation {
  isValid : bool;
  errors : list jsstring
}.

Definition push (errors : list jsstring) (e : jsstring) : list jsstring :=
  errors ++ [e].

Definition is_nopass (s : Security) : bool :=
  match s with nopass => true | _ => false end.

Definition validateWiFiConfig (config : WiFiConfig) : Validation :=
  let errors := [] in
  let errors :=
    if negb (truthy (trim (ssid config)))
    then push errors (str "SSID is required") else errors in
  let errors :=
    if 32 <? List.length (ssid config)
    then push errors (str "SSID cannot exceed 32 characters") else errors in
  let errors :=
    if negb (is_nopass (security config)) && negb (truthy (password config))
    then push errors (str "Password is required for secured networks")
    else errors in
  let errors :=
    if truthy (password config) && (63 <? List.length (password config))
    then push errors (str "Password cannot exceed 63 characters")
    else errors in
  mkValidation (Nat.eqb (List.length errors) 0) errors.

End Wifi.

(* ================================================================== *)
(** ** [qrcode.ts] *)

Module QRCode.

Definition validateQRContent (content : jsstring) : Wifi.Validation :=
  let errors := [] in
  let errors :=
    if negb (truthy (trim content))
    then Wifi.push errors (str "Content cannot be empty") else errors in
  let errors :=
    if 2000 <? List.length content
    then Wifi.push errors (str "Content is too long (maximum 2000 characters)")
    else errors in
  Wifi.mkValidation (Nat.eqb (List.length errors) 0) errors.

End QRCode.

(* ================================================================== *)
(** ** [QRReader.tsx] *)

Module Reader.

Inductive QRType :=
| url | text | wifi | email | phone | sms | geo | vcard | event | unknown.

Record WiFiData := mkWiFiData {
  ssid : jsstring;
  password : jsstring;
  security : jsstring;
  hidden : bool
}.

Record QRResult := mkQRResult {
  data : jsstring;
  type : QRType;
  parsed : option WiFiData
}.

Local Open Scope regex_scope.

(** [/^https?:\/\//i] *)
Definition re_http : RegExp :=
  mkRegExp (Bol ⋅ Chars (str "http") ⋅ Opt (Lit (chr "s")) ⋅ Chars (str "://"))
           true.

(** [/^www\./i] *)
Definition re_www : RegExp :=
  mkRegExp (Bol ⋅ Chars (str "www.")) true.

Definition not_semicolon : atom := NegClass [One (chr ";")].

(** [/WIFI:T:(G);S:(G);P:(G);H:(G);/] where each group [G] is [[^;]] under
    a star. *)
Definition re_wifi : RegExp :=
  mkRegExp (Chars (str "WIFI:T:") ⋅ Group 1 (Star not_semicolon)
            ⋅ Chars (str ";S:") ⋅ Group 2 (Star not_semicolon)
            ⋅ Chars (str ";P:") ⋅ Group 3 (Star not_semicolon)
            ⋅ Chars (str ";H:") ⋅ Group 4 (Star not_semicolon)
            ⋅ Chars (str ";"))
           false.

Definition not_space_at : atom := NegClass [Space; One (chr "@")].

(** [/^[^\s@]+@[^\s@]+\.[^\s@]+$/] *)
Definition re_email : RegExp :=
  mkRegExp (Bol ⋅ Plus not_space_at ⋅ Chars (str "@")
            ⋅ Plus not_space_at ⋅ Chars (str ".")
            ⋅ Plus not_space_at ⋅ Eol)
           false.

Definition phone_class : atom :=
  Class [Range (chr "0") (chr "9"); One (chr "-"); One (chr "(");
         One (chr ")"); Space].

(** [/^[\+]?[0-9\-\(\)\s]+$/] *)
Definition re_phone : RegExp :=
  mkRegExp (Bol ⋅ Opt (Class [One (chr "+")]) ⋅ Plus phone_class ⋅ Eol) false.

(** The conditions of the eight [if] statements, in source order. *)
Definition url_test (data : jsstring) : bool :=
  matches data re_http || matches data re_www.

(** The Wi-Fi block returns only when the prefix test and the pattern both
    succeed; [wifi_match] is the match object then. *)
Definition wifi_match (data : jsstring) : option match_result :=
  if startsWith data (str "WIFI:") then match_ data re_wifi else None.

Definition wifi_test (data : jsstring) : bool :=
  match wifi_match data with Some _ => true | None => false end.

Definition email_test (data : jsstring) : bool :=
  startsWith data (str "mailto:") || matches data re_email.

Definition phone_test (data : jsstring) : bool :=
  startsWith data (str "tel:") || matches data re_phone.

Definition sms_test (data : jsstring) : bool :=
  startsWith data (str "sms:") || startsWith data (str "smsto:").

Definition geo_test (data : jsstring) : bool :=
  startsWith data (str "geo:").

Definition vcard_test (data : jsstring) : bool :=
  startsWith data (str "BEGIN:VCARD").

Definition event_test (data : jsstring) : bool :=
  startsWith data (str "BEGIN:VEVENT").

Definition wifi_parsed (wifiMatch : match_result) : WiFiData :=
  {| security := orElse (group wifiMatch 1) (str "nopass");
     ssid := orElse (group wifiMatch 2) [];
     password := orElse (group wifiMatch 3) [];
     hidden := match group wifiMatch 4 with
               | Some g => JS.eqb g (str "true")
               | None => false
               end |}.

(** The statements after the Wi-Fi block. *)
Definition after_wifi (data : jsstring) : QRResult :=
  if email_test data then mkQRResult data email None
  else if phone_test data then mkQRResult data phone None
  else if sms_test data then mkQRResult data sms None
  else if geo_test data then mkQRResult data geo None
  else if vcard_test data then mkQRResult data vcard None
  else if event_test data then mkQRResult data event None
  else mkQRResult data text None.

Definition parseQRData (data : jsstring) : QRResult :=
  if url_test data then mkQRResult data url None
  else
    match wifi_match data with
    | Some wifiMatch => mkQRResult data wifi (Some (wifi_parsed wifiMatch))
    | None => after_wifi data
    end.

End Reader.

Import Wifi.
Import Reader.

(* ================================================================== *)
(** ** Global [replace] *)

Module Replace.

(** [s.replace(re, rep)] for a pattern with the [g] flag and a replacement
    text without [$]: the matches are taken left to right, each at the
    first index from the end of the one before; an empty match moves on by
    one character.  [skip] counts the characters of the current match that
    are still to be dropped. *)
Fixpoint replace_from (re : RegExp) (rep : jsstring) (p : nat) (s : jsstring)
         (skip : nat) {struct s} : jsstring :=
  match skip with
  | S k =>
      match s with
      | _ :: t => replace_from re rep (S p) t k
      | [] => []
      end
  | 0 =>
      match run (ignoreCase re) (body re) (mkState p s []) with
      | st :: _ =>
          rep ++
          match pos st - p, s with
          | 0, x :: t => x :: replace_from re rep (S p) t 0
          | S k, _ :: t => replace_from re rep (S p) t k
          | _, [] => []
          end
      | [] =>
          match s with
          | x :: t => x :: replace_from re rep (S p) t 0
          | [] => []
          end
      end
  end.

Definition replace (s : jsstring) (re : RegExp) (rep : jsstring) : jsstring :=
  replace_from re rep 0 s 0.

End Replace.

Import Replace.

(* ================================================================== *)
(** ** [download.ts] *)

Module Download.

(** The first pattern of [sanitizeFilename], with the [g] flag: one
    character of the class of less-than, greater-than, colon, double quote,
    slash, backslash, bar, question mark and star. *)
Definition re_invalid : RegExp :=
  mkRegExp
    (Atom (Class [One (chr "<"); One (chr ">"); One (chr ":"); One dquote;
                  One (chr "/"); One backslash; One (chr "|"); One (chr "?");
                  One (chr "*")]))
    false.

(** The second pattern, with the [g] flag: [\s+]. *)
Definition re_spaces : RegExp := mkRegExp (Plus (Class [Space])) false.

Definition sanitizeFilename (filename : jsstring) : jsstring :=
  trim (Replace.replace (Replace.replace filename re_invalid [])
                        re_spaces (str "_")).

(** The anchor element that [downloadPNG] builds, adds to the page, clicks
    and removes: where it points, and the file name it offers. *)
Record Anchor := mkAnchor {
  href : jsstring;
  download : jsstring
}.

Definition downloadPNG (dataUrl filename : jsstring) : Anchor :=
  mkAnchor dataUrl (filename ++ str ".png").

End Download.

Import Download.

(* ================================================================== *)
(** ** [qrcode.ts]: the URL helpers *)

(** [validateURL] and [normalizeURL] rest on the [URL] constructor of the
    platform, which either builds a URL or throws; [parses] tells which. *)
Module Url.
Section Parser.

Variable parses : jsstring -> bool.

Definition validateURL (url : jsstring) : bool :=
  if parses url then true
  else if parses (str "http://" ++ url) then true
  else false.

Definition normalizeURL (url : jsstring) : jsstring :=
  if parses url then url else str "http://" ++ url.

End Parser.
End Url.

(* ================================================================== *)
(** ** The generator component *)

Module Generator.

(** ['link' | 'text' | 'wifi']; the constructors carry a suffix, the state
    having fields of the same names. *)
Inductive InputType := link_input | text_input | wifi_input.

Inductive ErrorCorrectionLevel := L | M | Q | H.

(** The options are handed to the renderers as they are. *)
Record QRCodeOptions := mkQRCodeOptions {
  size : N;
  foregroundColor : jsstring;
  backgroundColor : jsstring;
  errorCorrectionLevel : ErrorCorrectionLevel;
  margin : N
}.

Inductive Language := en | fa.

Record QRState := mkQRState {
  inputType : InputType;
  link : jsstring;
  text : jsstring;
  wifi : WiFiConfig;
  options : QRCodeOptions;
  filename : jsstring;
  language : Language;
  qrCodePNG : option jsstring;
  qrCodeSVG : option jsstring;
  isGenerating : bool;
  showPassword : bool
}.

(** [setState(prev => ({ ...prev, qrCodePNG, qrCodeSVG }))] and the like. *)
Definition with_images (st : QRState) (png svg : option jsstring) : QRState :=
  mkQRState (inputType st) (link st) (text st) (wifi st) (options st)
            (filename st) (language st) png svg (isGenerating st)
            (showPassword st).

Definition with_isGenerating (st : QRState) (b : bool) : QRState :=
  mkQRState (inputType st) (link st) (text st) (wifi st) (options st)
            (filename st) (language st) (qrCodePNG st) (qrCodeSVG st) b
            (showPassword st).

Definition is_link (t : InputType) : bool :=
  match t with link_input => true | _ => false end.

Definition is_wifi (t : InputType) : bool :=
  match t with wifi_input => true | _ => false end.

Section External.

(** The [URL] constructor, and the two renderers of the QR library, which
    return an image or throw ([None]). *)
Variable parses : jsstring -> bool.
Variable generateQRCodePNG generateQRCodeSVG :
  jsstring -> QRCodeOptions -> option jsstring.

Definition getCurrentContent (state : QRState) : jsstring :=
  match inputType state with
  | link_input =>
      if truthy (link state) then Url.normalizeURL parses (link state) else []
  | text_input => text state
  | wifi_input => generateWiFiPayload (wifi state)
  end.

(** [generateQRCode], run to its end with no other update in between: the
    state it leaves. *)
Definition generateQRCode (state : QRState) : QRState :=
  let content := getCurrentContent state in
  if negb (truthy content) then with_images state None None
  else if negb (isValid (QRCode.validateQRContent content)) then state
  else if is_link (inputType state) && negb (Url.validateURL parses content)
       then state
  else if is_wifi (inputType state)
          && negb (isValid (validateWiFiConfig (wifi state)))
       then state
  else
    let state := with_isGenerating state true in
    match generateQRCodePNG content (options state),
          generateQRCodeSVG content (options state) with
    | Some pngDataUrl, Some svgContent =>
        with_isGenerating
          (with_images state (Some pngDataUrl) (Some svgContent)) false
    | _, _ => with_isGenerating state false
    end.

End External.

(** The download starts only when there is an image; the name field
    falls back to "qrcode" when empty. *)
Definition handleDownloadPNG (state : QRState) : option Download.Anchor :=
  match qrCodePNG state with
  | Some png =>
      if truthy png then
        let filename :=
          sanitizeFilename (orElse (Some (filename state)) (str "qrcode")) in
        Some (Download.downloadPNG png filename)
      else None
  | None => None
  end.

End Generator.

(* ================================================================== *)
(** ** Vocabulary of the statements *)

(** What the lemmas and theorems below are stated with: the escaping as
    one pass, the shapes of text the patterns stand for, the list of the
    classifier's tests, and the bookkeeping of the matcher's proofs. *)

Local Open Scope regex_scope.

(** *** The encoder *)

(** The five characters the encoder escapes. *)
Definition escaped_char (x : code_unit) : bool :=
  N.eqb x backslash || N.eqb x (chr ",") || N.eqb x (chr ";")
  || N.eqb x dquote || N.eqb x (chr ":").

Definition unescaped_char (x : code_unit) : bool := negb (escaped_char x).

(** One character, with a backslash in front when it is one of the five. *)
Definition escape_char (x : code_unit) : jsstring :=
  if escaped_char x then [backslash; x] else [x].

(** The configuration of the encoder's worked example: ssid [a;b],
    password [p\q] (one backslash), WPA, hidden. *)
Definition example_config : WiFiConfig :=
  mkWiFiConfig (str "a;b") (str "p\q") WPA true.

(** *** Runs of a class *)

(** The longest prefix of [s] inside a class, and what is left after it. *)
Fixpoint take_while (ok : code_unit -> bool) (s : jsstring) : jsstring :=
  match s with
  | x :: s' => if ok x then x :: take_while ok s' else []
  | [] => []
  end.

Fixpoint drop_while (ok : code_unit -> bool) (s : jsstring) : jsstring :=
  match s with
  | x :: s' => if ok x then drop_while ok s' else s
  | [] => []
  end.

Definition nonempty (A : Type) (l : list A) : bool :=
  match l with [] => false | _ :: _ => true end.

(** A continuation is blocked by a class when it cannot start on a
    character of the class. *)
Definition blocked (ok : code_unit -> bool) (f : state -> list state) : Prop :=
  forall q x r cs, ok x = true -> f (mkState q (x :: r) cs) = [].

(** What [Group n] does to a state [st'] reached from [st]. *)
Definition close_group (n : nat) (st st' : state) : state :=
  mkState (pos st') (rest st')
          ((n, firstn (pos st' - pos st) (rest st)) :: caps st').

(** *** The Wi-Fi capture pattern *)

Definition not_semi (x : code_unit) : bool := negb (N.eqb x (chr ";")).

(** The capture pattern, as a shape of the text: the four lead-ins with
    semicolon-free fields between them, and a closing semicolon. *)
Definition wifi_shape (s g1 g2 g3 g4 : jsstring) : Prop :=
  exists post,
    s = str "WIFI:T:" ++ g1 ++ str ";S:" ++ g2 ++ str ";P:" ++ g3
          ++ str ";H:" ++ g4 ++ str ";" ++ post
    /\ forallb not_semi g1 = true /\ forallb not_semi g2 = true
    /\ forallb not_semi g3 = true /\ forallb not_semi g4 = true.

(** One field of the payload: its lead-in, then everything up to the next
    semicolon. *)
Definition field (lead s : jsstring) : option (jsstring * jsstring) :=
  match strip false lead s with
  | Some r => Some (take_while not_semi r, drop_while not_semi r)
  | None => None
  end.

(** The Wi-Fi pattern read at the start of [s]: the four groups. *)
Definition wifi_at (s : jsstring)
  : option (jsstring * jsstring * jsstring * jsstring) :=
  match field (str "WIFI:T:") s with
  | Some (g1, s1) =>
    match field (str ";S:") s1 with
    | Some (g2, s2) =>
      match field (str ";P:") s2 with
      | Some (g3, s3) =>
        match field (str ";H:") s3 with
        | Some (g4, s4) =>
          match strip false (str ";") s4 with
          | Some _ => Some (g1, g2, g3, g4)
          | None => None
          end
        | None => None
        end
      | None => None
      end
    | None => None
    end
  | None => None
  end.

(** The capture list the matcher ends with: the group closed last first. *)
Definition wifi_caps (g : jsstring * jsstring * jsstring * jsstring)
  : captures :=
  let '(g1, g2, g3, g4) := g in [(4, g4); (3, g3); (2, g2); (1, g1)].

(** A regex that must start with a literal semicolon. *)
Inductive semicolon_first : regex -> Prop :=
| sf_chars l : semicolon_first (Chars (chr ";" :: l))
| sf_cat l R : semicolon_first (Chars (chr ";" :: l) ⋅ R).

(** *** The phone pattern *)

(** The class of the pattern: digits, hyphen, parentheses, white space. *)
Definition phone_char (x : code_unit) : bool :=
  ((chr "0" <=? x) && (x <=? chr "9"))%N
  || N.eqb x (chr "-") || N.eqb x (chr "(") || N.eqb x (chr ")")
  || isWhiteSpace x.

Definition phone_digits (s : jsstring) : bool :=
  truthy s && forallb phone_char s.

(** The pattern, as a shape of the text: at most one leading plus sign,
    then one or more characters of the class, and nothing else. *)
Definition phone_shape (s : jsstring) : bool :=
  match s with
  | x :: t => (N.eqb x (chr "+") && phone_digits t) || phone_digits s
  | [] => false
  end.

(** The class as the specification words it: plus sign, digits, hyphen,
    parentheses, spaces. *)
Definition claimed_phone_char (x : code_unit) : bool :=
  N.eqb x (chr "+")
  || ((chr "0" <=? x) && (x <=? chr "9"))%N
  || N.eqb x (chr "-") || N.eqb x (chr "(") || N.eqb x (chr ")")
  || N.eqb x (chr " ").

(** *** The email pattern *)

(** The class of the email pattern: neither white space nor an at sign. *)
Definition email_char (x : code_unit) : bool :=
  negb (isWhiteSpace x || N.eqb x (chr "@")).

(** The email pattern, as a shape of the text: three non-empty runs of the
    class, with an at sign after the first and a dot after the second. *)
Definition email_shape (s : jsstring) : Prop :=
  exists a b c,
    s = a ++ chr "@" :: b ++ chr "." :: c
    /\ a <> [] /\ b <> [] /\ c <> []
    /\ forallb email_char a = true /\ forallb email_char b = true
    /\ forallb email_char c = true.

(** *** The tests of the classifier *)

(** [s] starts with [p], letter case aside. *)
Definition prefix_ci (p s : jsstring) : bool :=
  match strip true p s with Some _ => true | None => false end.

(** The conditions of the eight [if] statements on one text. *)
Definition category_tests (s : jsstring) : list bool :=
  [url_test s; wifi_test s; email_test s; phone_test s;
   sms_test s; geo_test s; vcard_test s; event_test s].

Definition count_true (l : list bool) : nat :=
  List.length (filter (fun b => b) l).

(** Every test but the full-match email pattern pins down the start of the
    text; [tag] reads off from the first characters the only such test
    that can succeed: 1 URL, 2 Wi-Fi, 3 mailto:, 4 phone, 5 SMS, 6 geo,
    7 vCard, 8 event, 0 none of them. *)
Definition tag (s : jsstring) : nat :=
  match s with
  | [] => 0
  | c :: t =>
      if N.eqb (canonicalize c) (chr "H") then 1
      else if N.eqb (canonicalize c) (chr "W") then
        match t with
        | y :: _ => if N.eqb (canonicalize y) (chr "W") then 1 else 2
        | [] => 0
        end
      else if N.eqb c (chr "m") then 3
      else if N.eqb c (chr "s") then 5
      else if N.eqb c (chr "g") then 6
      else if N.eqb c (chr "B") then
        match nth_error t 6 with
        | Some z => if N.eqb z (chr "C") then 7 else 8
        | None => 0
        end
      else 4
  end.

(** *** File names, reading a payload back, the generator *)

(** The characters [sanitizeFilename] deletes. *)
Definition forbidden_char (x : code_unit) : bool :=
  existsb (N.eqb x)
    [chr "<"; chr ">"; chr ":"; dquote; chr "/"; backslash; chr "|";
     chr "?"; chr "*"].

(** A character [sanitizeFilename] leaves alone. *)
Definition clean_char (x : code_unit) : bool :=
  negb (forbidden_char x) && negb (isWhiteSpace x).

(** Each maximal run of a class replaced by one copy of [rep]; [inrun]
    tells that the character before was of the class. *)
Fixpoint squeeze (ok : code_unit -> bool) (rep : jsstring) (inrun : bool)
         (s : jsstring) : jsstring :=
  match s with
  | [] => []
  | x :: t =>
      if ok x then (if inrun then [] else rep) ++ squeeze ok rep true t
      else x :: squeeze ok rep false t
  end.

(** Reading an escaped text back: a backslash stands for the character
    after it. *)
Fixpoint unescape (s : jsstring) : jsstring :=
  match s with
  | [] => []
  | x :: t =>
      if N.eqb x backslash then
        match t with
        | y :: t' => y :: unescape t'
        | [] => [x]
        end
      else x :: unescape t
  end.

(** Reading one escaped field up to the semicolon that closes it: the
    field, unescaped, and the text after the semicolon. *)
Fixpoint read_field (s : jsstring) : option (jsstring * jsstring) :=
  match s with
  | [] => None
  | x :: t =>
      if N.eqb x (chr ";") then Some ([], t)
      else if N.eqb x backslash then
        match t with
        | y :: t' =>
            match read_field t' with
            | Some (f, r) => Some (y :: f, r)
            | None => None
            end
        | [] => None
        end
      else
        match read_field t with
        | Some (f, r) => Some (x :: f, r)
        | None => None
        end
  end.

(** Reading a payload back: security, ssid, password and hidden as texts. *)
Definition read_payload (s : jsstring)
  : option (jsstring * jsstring * jsstring * jsstring) :=
  match strip false (str "WIFI:T:") s with
  | Some s1 =>
    match read_field s1 with
    | Some (sec, s2) =>
      match strip false (str "S:") s2 with
      | Some s3 =>
        match read_field s3 with
        | Some (ss, s4) =>
          match strip false (str "P:") s4 with
          | Some s5 =>
            match read_field s5 with
            | Some (pw, s6) =>
              match strip false (str "H:") s6 with
              | Some s7 =>
                match read_field s7 with
                | Some (h, _) => Some (sec, ss, pw, h)
                | None => None
                end
              | None => None
              end
            | None => None
            end
          | None => None
          end
        | None => None
        end
      | None => None
      end
    | None => None
    end
  | None => None
  end.

(** [s] starts with [p], letter case aside, as a shape of the text. *)
Definition starts_with_ci (s p : jsstring) : Prop :=
  exists a t, s = a ++ t /\ map canonicalize a = map canonicalize p.

(** [s] starts with the character [c]. *)
Definition head_is (c : code_unit) (s : jsstring) : bool :=
  match s with x :: _ => N.eqb x c | [] => false end.

(** [s] has an [a] directly followed by a [b]. *)
Fixpoint has_pair (a b : code_unit) (s : jsstring) : bool :=
  match s with
  | x :: t => (N.eqb x a && head_is b t) || has_pair a b t
  | [] => false
  end.

(** The payload from its fifth character on. *)
Definition payload_tail (config : WiFiConfig) : jsstring :=
  str ":T:" ++ security_str (Wifi.security config)
    ++ str ";S:" ++ escapeWiFiString (Wifi.ssid config)
    ++ str ";P:" ++ escapeWiFiString (Wifi.password config)
    ++ str ";H:" ++ (if Wifi.hidden config then str "true" else str "false")
    ++ str ";;".

(** What [generateQRCode] does once every check has passed. *)
Definition rendered
    (generateQRCodePNG generateQRCodeSVG :
       jsstring -> Generator.QRCodeOptions -> option jsstring)
    (state : Generator.QRState) (content : jsstring) : Generator.QRState :=
  match generateQRCodePNG content (Generator.options state),
        generateQRCodeSVG content (Generator.options state) with
  | Some png, Some svg =>
      Generator.with_isGenerating
        (Generator.with_images (Generator.with_isGenerating state true)
                               (Some png) (Some svg)) false
  | _, _ =>
      Generator.with_isGenerating (Generator.with_isGenerating state true)
                                  false
  end.

(** Stand-ins for the platform, to run the component on examples: a parser
    that accepts what starts with a scheme, renderers that always succeed. *)
Definition sample_parses (s : jsstring) : bool :=
  startsWith s (str "http://") || startsWith s (str "https://").

Definition sample_render (tag : jsstring) (content : jsstring)
           (_ : Generator.QRCodeOptions) : option jsstring :=
  Some (tag ++ content).

Definition sample_state : Generator.QRState :=
  Generator.mkQRState
    Generator.link_input [] [] (mkWiFiConfig [] [] WPA false)
    (Generator.mkQRCodeOptions 256 (str "#000000") (str "#ffffff")
                               Generator.M 2)
    (str "qrcode") Generator.en None None false false.

(* ================================================================== *)
(** ** Strings: basic facts *)

Section StringFacts.

Lemma truthy_false (s : jsstring) : truthy s = false <-> s = [].
Proof. destruct s; simpl; split; congruence. Qed.

Lemma truthy_true (s : jsstring) : truthy s = true <-> s <> [].
Proof. destruct s; simpl; split; congruence. Qed.

Lemma trimStart_nil (s : jsstring) :
  trimStart s = [] <-> forallb isWhiteSpace s = true.
Proof.
  induction s as [|c s IH]; simpl.
  - tauto.
  - destruct (isWhiteSpace c); simpl; [exact IH | split; discriminate].
Qed.

Lemma trimStart_fixed (s : jsstring) :
  forallb isWhiteSpace (trimStart s) = true -> trimStart s = [].
Proof.
  induction s as [|c s IH]; simpl; auto.
  destruct (isWhiteSpace c) eqn:E; auto.
  simpl. rewrite E. discriminate.
Qed.

Lemma forallb_rev (f : code_unit -> bool) (s : jsstring) :
  forallb f (rev s) = forallb f s.
Proof.
  induction s as [|c s IH]; simpl; auto.
  rewrite forallb_app, IH. simpl. rewrite andb_true_r. apply andb_comm.
Qed.

(** [s.trim()] is empty exactly when [s] is made of white space only. *)
Lemma trim_nil (s : jsstring) :
  trim s = [] <-> forallb isWhiteSpace s = true.
Proof.
  unfold trim, trimEnd. split; intros H.
  - apply trimStart_nil, trimStart_fixed.
    rewrite <- forallb_rev. apply trimStart_nil.
    apply (f_equal (@rev _)) in H. rewrite rev_involutive in H. exact H.
  - apply trimStart_nil in H. rewrite H. reflexivity.
Qed.

Lemma startsWith_app (p t : jsstring) : startsWith (p ++ t) p = true.
Proof.
  induction p as [|c p IH]; cbn [startsWith app]; auto.
  now rewrite N.eqb_refl.
Qed.

Lemma startsWith_inv (s p : jsstring) :
  startsWith s p = true -> exists t, s = p ++ t.
Proof.
  revert s; induction p as [|c p IH]; intros s H; cbn [startsWith app] in *.
  - now exists s.
  - destruct s as [|x s]; [discriminate|].
    apply andb_prop in H as [H1 H2]. apply N.eqb_eq in H1 as ->.
    destruct (IH _ H2) as [t ->]. now exists t.
Qed.

Lemma eqb_eq (a b : jsstring) : JS.eqb a b = true <-> a = b.
Proof.
  revert b; induction a as [|x a IH]; intros [|y b]; cbn [JS.eqb];
    try (split; congruence).
  rewrite andb_true_iff, N.eqb_eq, IH. split.
  - intros [-> ->]; reflexivity.
  - intros E; injection E; auto.
Qed.

End StringFacts.

(* ================================================================== *)
(** ** The validators *)

Section Validators.

Import Wifi.

(** Two different messages are told apart by computing [JS.eqb]. *)
Ltac str_neq H :=
  apply eqb_eq in H; vm_compute in H; discriminate H.

Lemma length_zero_nil (A : Type) (l : list A) :
  Nat.eqb (List.length l) 0 = true <-> l = [].
Proof. destruct l; simpl; split; congruence. Qed.

Lemma messages_distinct :
  let m1 := str "SSID is required" in
  let m2 := str "SSID cannot exceed 32 characters" in
  let m3 := str "Password is required for secured networks" in
  let m4 := str "Password cannot exceed 63 characters" in
  m1 <> m2 /\ m1 <> m3 /\ m1 <> m4 /\ m2 <> m3 /\ m2 <> m4 /\ m3 <> m4.
Proof. repeat split; intros H; str_neq H. Qed.

(** C4. [validateWiFiConfig] runs four independent checks and reports the
    message of each failing one, and nothing else: "SSID is required" iff
    the trimmed ssid is empty, "SSID cannot exceed 32 characters" iff the
    ssid is longer than 32, "Password is required for secured networks" iff
    security is not nopass and the password is empty, "Password cannot
    exceed 63 characters" iff the password is longer than 63; [isValid] is
    true iff the list is empty.  An ssid of 33 "x" with password "ok" and
    security nopass is invalid with the 32-character message only. *)
Theorem validateWiFiConfig_reports_failing_checks (config : WiFiConfig) :
  let v := validateWiFiConfig config in
  (In (str "SSID is required") (errors v) <-> trim (ssid config) = []) /\
  (In (str "SSID cannot exceed 32 characters") (errors v)
     <-> 32 < List.length (ssid config)) /\
  (In (str "Password is required for secured networks") (errors v)
     <-> security config <> nopass /\ password config = []) /\
  (In (str "Password cannot exceed 63 characters") (errors v)
     <-> 63 < List.length (password config)) /\
  (forall e, In e (errors v) ->
     e = str "SSID is required" \/
     e = str "SSID cannot exceed 32 characters" \/
     e = str "Password is required for secured networks" \/
     e = str "Password cannot exceed 63 characters") /\
  NoDup (errors v) /\
  (isValid v = true <-> errors v = []) /\
  validateWiFiConfig
    (mkWiFiConfig (repeat (chr "x") 33) (str "ok") nopass false)
  = mkValidation false [str "SSID cannot exceed 32 characters"].
Proof.
  intros v.
  assert (C1 : negb (truthy (trim (ssid config))) = true
               <-> trim (ssid config) = []).
  { rewrite negb_true_iff. apply truthy_false. }
  assert (C2 : (32 <? List.length (ssid config)) = true
               <-> 32 < List.length (ssid config)) by apply Nat.ltb_lt.
  assert (C3 : negb (is_nopass (security config))
                 && negb (truthy (password config)) = true
               <-> security config <> nopass /\ password config = []).
  { rewrite andb_true_iff, !negb_true_iff, truthy_false.
    destruct (security config); simpl; intuition congruence. }
  assert (C4 : truthy (password config)
                 && (63 <? List.length (password config)) = true
               <-> 63 < List.length (password config)).
  { rewrite andb_true_iff, Nat.ltb_lt.
    destruct (password config); simpl; intuition (try lia; congruence). }
  assert (V : isValid v = true <-> errors v = []) by apply length_zero_nil.
  assert (EX : validateWiFiConfig
                 (mkWiFiConfig (repeat (chr "x") 33) (str "ok") nopass false)
               = mkValidation false [str "SSID cannot exceed 32 characters"])
    by (vm_compute; reflexivity).
  subst v. unfold validateWiFiConfig in *. cbv zeta in *.
  pose proof messages_distinct as (D12 & D13 & D14 & D23 & D24 & D34).
  set (m1 := str "SSID is required") in *.
  set (m2 := str "SSID cannot exceed 32 characters") in *.
  set (m3 := str "Password is required for secured networks") in *.
  set (m4 := str "Password cannot exceed 63 characters") in *.
  clearbody m1 m2 m3 m4.
  refine (conj _ (conj _ (conj _ (conj _ (conj _ (conj _ (conj _ EX)))))));
    clear EX;
    [ rewrite <- C1 | rewrite <- C2 | rewrite <- C3 | rewrite <- C4
    | intros e | | exact V ];
    clear C1 C2 C3 C4 V;
    destruct (negb (truthy (trim (ssid config))));
    destruct (32 <? List.length (ssid config));
    destruct (negb (is_nopass (security config))
                && negb (truthy (password config)));
    destruct (truthy (password config)
                && (63 <? List.length (password config)));
    cbn [errors push app In];
    try (intuition congruence);
    repeat constructor; cbn [In]; intuition congruence.
Qed.

(** C10. [validateQRContent] reports "Content cannot be empty" iff the
    content is empty after trimming, "Content is too long (maximum 2000
    characters)" iff it is longer than 2000 characters, no other message,
    and [isValid] is true iff the list is empty. *)
Theorem validateQRContent_reports_failing_checks (content : jsstring) :
  let v := QRCode.validateQRContent content in
  (In (str "Content cannot be empty") (errors v) <-> trim content = []) /\
  (In (str "Content is too long (maximum 2000 characters)") (errors v)
     <-> 2000 < List.length content) /\
  (forall e, In e (errors v) ->
     e = str "Content cannot be empty" \/
     e = str "Content is too long (maximum 2000 characters)") /\
  (isValid v = true <-> errors v = []).
Proof.
  intros v.
  assert (C1 : negb (truthy (trim content)) = true <-> trim content = []).
  { rewrite negb_true_iff. apply truthy_false. }
  assert (C2 : (2000 <? List.length content) = true
               <-> 2000 < List.length content) by apply Nat.ltb_lt.
  assert (V : isValid v = true <-> errors v = []) by apply length_zero_nil.
  subst v. unfold QRCode.validateQRContent in *. cbv zeta in *.
  assert (D : str "Content cannot be empty"
              <> str "Content is too long (maximum 2000 characters)")
    by (intros H; str_neq H).
  set (m1 := str "Content cannot be empty") in *.
  set (m2 := str "Content is too long (maximum 2000 characters)") in *.
  clearbody m1 m2.
  refine (conj _ (conj _ (conj _ _)));
    [ rewrite <- C1 | rewrite <- C2 | intros e | exact V ];
    clear C1 C2 V;
    destruct (negb (truthy (trim content)));
    destruct (2000 <? List.length content);
    cbn [errors push app In];
    intuition congruence.
Qed.

End Validators.

(* ================================================================== *)
(** ** The Wi-Fi payload *)

Section Payload.

Import Wifi.

Lemma flat_map_flat_map (A B C : Type) (f : B -> list C) (g : A -> list B)
      (l : list A) :
  flat_map f (flat_map g l) = flat_map (fun x => flat_map f (g x)) l.
Proof.
  induction l as [|x l IH]; simpl; auto.
  now rewrite flat_map_app, IH.
Qed.

(** Because the backslash goes first, the five passes add up to one pass
    that puts a backslash in front of each of the five characters. *)
Lemma escapeWiFiString_one_pass (s : jsstring) :
  escapeWiFiString s = flat_map escape_char s.
Proof.
  unfold escapeWiFiString, replaceAll. cbv zeta.
  rewrite !flat_map_flat_map.
  apply flat_map_ext. intros x. unfold escape_char, escaped_char.
  destruct (N.eqb_spec x backslash) as [->|]; [reflexivity|].
  destruct (N.eqb_spec x (chr ",")) as [->|]; [reflexivity|].
  destruct (N.eqb_spec x (chr ";")) as [->|]; [reflexivity|].
  destruct (N.eqb_spec x dquote) as [->|]; [reflexivity|].
  destruct (N.eqb_spec x (chr ":")) as [->|]; [reflexivity|].
  cbn [flat_map app orb].
  repeat match goal with
         | H : x <> ?c |- context [N.eqb x ?c] =>
             rewrite (proj2 (N.eqb_neq x c) H); cbn [flat_map app]
         end.
  reflexivity.
Qed.

Lemma escape_unchanged (s : jsstring) :
  forallb unescaped_char s = true ->
  escapeWiFiString s = s.
Proof.
  rewrite escapeWiFiString_one_pass.
  induction s as [|x s IH]; cbn [flat_map forallb]; auto.
  intros H. apply andb_prop in H as [Hx Hs].
  unfold escape_char at 1. apply negb_true_iff in Hx. rewrite Hx.
  cbn [app]. now rewrite IH.
Qed.

(** C3, as stated (with the example's result 29 characters long), fails:
    the example's payload is the string the claim spells out, and that
    string has 33 characters. *)
Lemma generateWiFiPayload_example_length :
  generateWiFiPayload example_config = str "WIFI:T:WPA;S:a\;b;P:p\\q;H:true;;"
  /\ List.length (generateWiFiPayload example_config) = 33
  /\ Nat.eqb (List.length (generateWiFiPayload example_config)) 29 = false.
Proof. vm_compute. auto. Qed.

(** C3 (amended). [generateWiFiPayload] returns
    WIFI:T:<security>;S:<escaped ssid>;P:<escaped password>;H:<true|false>;;
    with the security verbatim, hidden as the literal true or false, and
    ssid and password escaped by the global replacements backslash, comma,
    semicolon, double quote, colon, in that order; the example
    configuration yields the 33-character string
    WIFI:T:WPA;S:a\;b;P:p\\q;H:true;; *)
Theorem generateWiFiPayload_format (config : WiFiConfig) :
  let escape s :=
    replaceAll (chr ":") [backslash; chr ":"]
      (replaceAll dquote [backslash; dquote]
        (replaceAll (chr ";") [backslash; chr ";"]
          (replaceAll (chr ",") [backslash; chr ","]
            (replaceAll backslash [backslash; backslash] s)))) in
  generateWiFiPayload config
  = str "WIFI:T:"
      ++ match security config with
         | WPA => str "WPA" | WEP => str "WEP" | nopass => str "nopass"
         end
      ++ str ";S:" ++ escape (ssid config)
      ++ str ";P:" ++ escape (password config)
      ++ str ";H:" ++ str (if hidden config then "true" else "false")
      ++ str ";;"
  /\ escape (ssid config) = flat_map escape_char (ssid config)
  /\ escape (password config) = flat_map escape_char (password config)
  /\ generateWiFiPayload example_config
     = str "WIFI:T:WPA;S:a\;b;P:p\\q;H:true;;"
  /\ List.length (generateWiFiPayload example_config) = 33.
Proof.
  intros escape. split; [|split; [|split; [|split]]].
  - unfold generateWiFiPayload. cbv zeta.
    destruct (hidden config); reflexivity.
  - apply escapeWiFiString_one_pass.
  - apply escapeWiFiString_one_pass.
  - vm_compute. reflexivity.
  - vm_compute. reflexivity.
Qed.

End Payload.

(* ================================================================== *)
(** ** The matcher on the shapes the patterns have *)

Section Matcher.

(** Runs of a class, and the greedy star in front of a continuation that
    the class blocks. *)

Lemma take_drop_while ok s : take_while ok s ++ drop_while ok s = s.
Proof.
  induction s as [|x s IH]; simpl; auto.
  destruct (ok x); simpl; congruence.
Qed.

Lemma take_while_all ok s : forallb ok (take_while ok s) = true.
Proof.
  induction s as [|x s IH]; simpl; auto.
  destruct (ok x) eqn:E; simpl; auto. now rewrite E.
Qed.

Lemma drop_while_head ok s x t : drop_while ok s = x :: t -> ok x = false.
Proof.
  induction s as [|y s IH]; simpl; [discriminate|].
  destruct (ok y) eqn:E; auto. intros H; injection H as -> _. exact E.
Qed.

Lemma firstn_take_while ok s :
  firstn (List.length (take_while ok s)) s = take_while ok s.
Proof.
  induction s as [|x s IH]; simpl; auto.
  destruct (ok x); simpl; congruence.
Qed.

Lemma take_while_app ok g x t :
  forallb ok g = true -> ok x = false ->
  take_while ok (g ++ x :: t) = g /\ drop_while ok (g ++ x :: t) = x :: t.
Proof.
  intros Hg Hx. induction g as [|y g IH]; simpl in *.
  - now rewrite Hx.
  - apply andb_prop in Hg as [Hy Hg]. rewrite Hy.
    destruct (IH Hg) as [-> ->]. auto.
Qed.

Lemma drop_while_nil ok s : drop_while ok s = [] <-> forallb ok s = true.
Proof.
  induction s as [|x s IH]; simpl; [tauto|].
  destruct (ok x); simpl; [exact IH | split; discriminate].
Qed.

Lemma flat_map_map (A B C : Type) (f : B -> list C) (g : A -> B) l :
  flat_map f (map g l) = flat_map (fun x => f (g x)) l.
Proof. induction l as [|x l IH]; simpl; congruence. Qed.

(** A greedy star in front of a blocked continuation never backtracks: only
    the longest run goes through. *)
Lemma star_flat_map ok f :
  blocked ok f ->
  forall r p cs,
    flat_map f (star ok p r cs)
    = f (mkState (p + List.length (take_while ok r)) (drop_while ok r) cs).
Proof.
  intros B. induction r as [|x r IH]; intros p cs;
    cbn [star take_while drop_while].
  - cbn [flat_map List.length]. rewrite app_nil_r, Nat.add_0_r. reflexivity.
  - destruct (ok x) eqn:E.
    + rewrite flat_map_app, IH. cbn [flat_map].
      rewrite (B p x r cs E). cbn [List.length].
      rewrite !app_nil_r, Nat.add_succ_r. reflexivity.
    + cbn [flat_map List.length]. rewrite app_nil_r, Nat.add_0_r. reflexivity.
Qed.

Lemma strip_exact p s r : strip false p s = Some r <-> s = p ++ r.
Proof.
  revert s; induction p as [|y p IH]; intros s; cbn [strip app].
  - split; congruence.
  - destruct s as [|x s]; [split; discriminate|].
    unfold same_char. destruct (N.eqb_spec x y) as [->|].
    + rewrite IH. split; [intros ->; reflexivity | intros E; injection E; auto].
    + split; [discriminate | intros E; injection E; congruence].
Qed.

(** What follows a group in the Wi-Fi pattern starts with a semicolon. *)
Lemma blocked_chars ic ok c l (k : state -> state) :
  (forall x, ok x = true -> same_char ic x c = false) ->
  (forall q r cs, rest (k (mkState q r cs)) = r) ->
  blocked ok (fun st => run ic (Chars (c :: l)) (k st)).
Proof.
  intros H K q x r cs Hx. cbn [run]. rewrite K. cbn [strip].
  now rewrite (H x Hx).
Qed.

Lemma blocked_cat ic ok c l R (k : state -> state) :
  (forall x, ok x = true -> same_char ic x c = false) ->
  (forall q r cs, rest (k (mkState q r cs)) = r) ->
  blocked ok (fun st => run ic (Cat (Chars (c :: l)) R) (k st)).
Proof.
  intros H K q x r cs Hx. cbn [run]. rewrite K. cbn [strip].
  now rewrite (H x Hx).
Qed.

(** A starred class in a group, followed by something the class blocks,
    captures the longest run of the class. *)
Lemma run_group_star ic n a R st :
  blocked (accepts ic a) (fun st' => run ic R (close_group n st st')) ->
  run ic (Cat (Group n (Star a)) R) st
  = run ic R
      (mkState (pos st + List.length (take_while (accepts ic a) (rest st)))
               (drop_while (accepts ic a) (rest st))
               ((n, take_while (accepts ic a) (rest st)) :: caps st)).
Proof.
  intros B. cbn [run]. fold (close_group n st).
  change (fun st' => mkState (pos st') (rest st')
                       ((n, firstn (pos st' - pos st) (rest st)) :: caps st'))
    with (close_group n st).
  rewrite flat_map_map, (star_flat_map B).
  unfold close_group. cbn [pos rest caps].
  replace (pos st + List.length (take_while (accepts ic a) (rest st)) - pos st)
    with (List.length (take_while (accepts ic a) (rest st))) by lia.
  now rewrite firstn_take_while.
Qed.

End Matcher.

(* ================================================================== *)
(** ** The Wi-Fi capture pattern *)

Section WifiPattern.

Local Open Scope regex_scope.

Lemma accepts_not_semicolon x : accepts false not_semicolon x = not_semi x.
Proof.
  unfold not_semi. cbn [accepts not_semicolon existsb in_item].
  now rewrite orb_false_r.
Qed.

Lemma not_semi_blocks x :
  accepts false not_semicolon x = true -> same_char false x (chr ";") = false.
Proof.
  rewrite accepts_not_semicolon. unfold not_semi, same_char.
  now destruct (N.eqb x (chr ";")).
Qed.

Lemma take_while_ext ok ok' s :
  (forall x, ok x = ok' x) ->
  take_while ok s = take_while ok' s /\ drop_while ok s = drop_while ok' s.
Proof.
  intros E. induction s as [|x s [IH1 IH2]]; simpl; auto.
  rewrite <- E. destruct (ok x); auto. now rewrite IH1.
Qed.

Lemma run_cat ic r1 r2 st :
  run ic (r1 ⋅ r2) st = flat_map (run ic r2) (run ic r1 st).
Proof. reflexivity. Qed.

Lemma run_chars ic p st :
  run ic (Chars p) st
  = match strip ic p (rest st) with
    | Some r' => [mkState (pos st + List.length p) r' (caps st)]
    | None => []
    end.
Proof. reflexivity. Qed.

Lemma flat_map_one (A B : Type) (f : A -> list B) x : flat_map f [x] = f x.
Proof. simpl. apply app_nil_r. Qed.

Lemma semicolon_first_blocked K n st0 :
  semicolon_first K ->
  blocked (accepts false not_semicolon)
          (fun st' => run false K (close_group n st0 st')).
Proof.
  intros [l|l R].
  - apply blocked_chars; [apply not_semi_blocks | reflexivity].
  - apply blocked_cat; [apply not_semi_blocks | reflexivity].
Qed.

(** A lead-in followed by a group, in front of a continuation that starts
    with a literal semicolon. *)
Lemma run_lead_group lead n K st :
  semicolon_first K ->
  run false (Chars lead ⋅ Group n (Star not_semicolon) ⋅ K) st
  = match field lead (rest st) with
    | Some (g, s') =>
        run false K
            (mkState (pos st + List.length lead + List.length g) s'
                     ((n, g) :: caps st))
    | None => []
    end.
Proof.
  intros HK. rewrite run_cat, run_chars. unfold field.
  destruct (strip false lead (rest st)) as [r|]; [|reflexivity].
  rewrite flat_map_one, run_group_star by now apply semicolon_first_blocked.
  cbn [pos rest caps].
  destruct (take_while_ext (accepts false not_semicolon) not_semi r
              accepts_not_semicolon) as [-> ->].
  reflexivity.
Qed.

(** At any start index the Wi-Fi pattern has at most one match, the one
    [wifi_at] reads off. *)
Lemma run_wifi p s :
  map caps (run false (body re_wifi) (mkState p s []))
  = match wifi_at s with
    | Some g => [wifi_caps g]
    | None => []
    end.
Proof.
  unfold re_wifi, wifi_at. cbn [body].
  rewrite run_lead_group by constructor. cbn [rest].
  destruct (field (str "WIFI:T:") s) as [[g1 s1]|]; [|reflexivity].
  rewrite run_lead_group by constructor. cbn [rest].
  destruct (field (str ";S:") s1) as [[g2 s2]|]; [|reflexivity].
  rewrite run_lead_group by constructor. cbn [rest].
  destruct (field (str ";P:") s2) as [[g3 s3]|]; [|reflexivity].
  rewrite run_lead_group by constructor. cbn [rest].
  destruct (field (str ";H:") s3) as [[g4 s4]|]; [|reflexivity].
  rewrite run_chars. cbn [rest].
  destruct (strip false (str ";") s4); reflexivity.
Qed.

Lemma field_inv lead s g s' :
  field lead s = Some (g, s') ->
  s = lead ++ g ++ s' /\ forallb not_semi g = true.
Proof.
  unfold field. destruct (strip false lead s) as [r|] eqn:E; [|discriminate].
  intros H; injection H as <- <-. apply strip_exact in E as ->.
  now rewrite take_drop_while, take_while_all.
Qed.

Lemma field_intro lead g t :
  forallb not_semi g = true ->
  field lead (lead ++ g ++ chr ";" :: t) = Some (g, chr ";" :: t).
Proof.
  intros Hg. unfold field.
  rewrite (proj2 (strip_exact lead _ (g ++ chr ";" :: t)) eq_refl).
  now destruct (take_while_app not_semi g (chr ";") t Hg eq_refl) as [-> ->].
Qed.

Lemma wifi_at_shape s g1 g2 g3 g4 :
  wifi_at s = Some (g1, g2, g3, g4) <-> wifi_shape s g1 g2 g3 g4.
Proof.
  unfold wifi_at, wifi_shape. split.
  - destruct (field (str "WIFI:T:") s) as [[a1 s1]|] eqn:F1; [|discriminate].
    destruct (field (str ";S:") s1) as [[a2 s2]|] eqn:F2; [|discriminate].
    destruct (field (str ";P:") s2) as [[a3 s3]|] eqn:F3; [|discriminate].
    destruct (field (str ";H:") s3) as [[a4 s4]|] eqn:F4; [|discriminate].
    destruct (strip false (str ";") s4) as [post|] eqn:F5; [|discriminate].
    intros H; injection H as -> -> -> ->.
    apply field_inv in F1 as [-> H1], F2 as [-> H2], F3 as [-> H3],
          F4 as [-> H4].
    apply strip_exact in F5 as ->.
    exists post. auto.
  - intros (post & -> & H1 & H2 & H3 & H4).
    change (str ";S:" ++ ?x) with (chr ";" :: str "S:" ++ x).
    rewrite (@field_intro _ _ _ H1).
    change (chr ";" :: str "S:" ++ ?x) with (str ";S:" ++ x).
    change (str ";P:" ++ ?x) with (chr ";" :: str "P:" ++ x).
    rewrite (@field_intro _ _ _ H2).
    change (chr ";" :: str "P:" ++ ?x) with (str ";P:" ++ x).
    change (str ";H:" ++ ?x) with (chr ";" :: str "H:" ++ x).
    rewrite (@field_intro _ _ _ H3).
    change (chr ";" :: str "H:" ++ ?x) with (str ";H:" ++ x).
    change (str ";" ++ post) with (chr ";" :: post).
    rewrite (@field_intro _ _ _ H4).
    reflexivity.
Qed.

Lemma search_wifi_step p s :
  search re_wifi p s
  = match wifi_at s with
    | Some g => Some (mkMatch p (wifi_caps g))
    | None => match s with
              | [] => None
              | _ :: s' => search re_wifi (S p) s'
              end
    end.
Proof.
  pose proof (run_wifi p s) as R.
  destruct s as [|x s]; cbn [search];
    change (ignoreCase re_wifi) with false;
    destruct (run false (body re_wifi) _) as [|st l];
    destruct (wifi_at _) as [g|]; cbn [map] in R; try discriminate;
    try reflexivity; injection R as -> _; reflexivity.
Qed.

(** The match object of the Wi-Fi pattern: the leftmost index at which the
    text has the shape, and the four fields there. *)
Lemma search_wifi_some s : forall p m,
  search re_wifi p s = Some m ->
  exists i g,
    i <= List.length s /\ index m = p + i /\ groups m = wifi_caps g /\
    wifi_at (skipn i s) = Some g /\
    forall j, j < i -> wifi_at (skipn j s) = None.
Proof.
  induction s as [|x s IH]; intros p m; rewrite search_wifi_step.
  - destruct (wifi_at []) as [g|] eqn:E; [|discriminate].
    intros H; injection H as <-. exists 0, g. cbn.
    repeat split; auto; lia.
  - destruct (wifi_at (x :: s)) as [g|] eqn:E.
    + intros H; injection H as <-. exists 0, g. cbn [skipn index groups].
      repeat split; auto; lia.
    + intros H. destruct (IH _ _ H) as (i & g & Hi & Hm & Hg & Ha & Hl).
      exists (S i), g. cbn [skipn List.length].
      repeat split; auto; try lia.
      intros [|j] Hj; cbn [skipn]; [exact E | apply Hl; lia].
Qed.

Lemma search_wifi_none s : forall p,
  search re_wifi p s = None -> forall i, wifi_at (skipn i s) = None.
Proof.
  induction s as [|x s IH]; intros p; rewrite search_wifi_step.
  - destruct (wifi_at []) eqn:E; [discriminate|].
    intros _ [|i]; exact E.
  - destruct (wifi_at (x :: s)) eqn:E; [discriminate|].
    intros H [|i]; cbn [skipn]; [exact E | now apply (IH _ H)].
Qed.

End WifiPattern.

(* ================================================================== *)
(** ** The anchored patterns: phone, email, URL *)

Section Anchored.

Local Open Scope regex_scope.

(** A pattern that opens with [^] can only match at index 0. *)
Lemma search_bol re R :
  body re = Bol ⋅ R -> forall s p, search re (S p) s = None.
Proof.
  intros E. induction s as [|x s IH]; intros p; cbn [search]; rewrite E;
    cbn [run pos Nat.eqb flat_map]; auto.
Qed.

Lemma matches_bol re R s :
  body re = Bol ⋅ R ->
  matches s re = nonempty (run (ignoreCase re) R (mkState 0 s [])).
Proof.
  intros E. unfold matches, match_.
  destruct s as [|x s]; cbn [search]; rewrite E;
    cbn [run pos Nat.eqb flat_map]; rewrite app_nil_r;
    destruct (run _ R _); cbn [nonempty]; auto.
  now rewrite (search_bol re E).
Qed.

Lemma nonempty_app (A : Type) (l1 l2 : list A) :
  nonempty (l1 ++ l2) = nonempty l1 || nonempty l2.
Proof. destruct l1; reflexivity. Qed.

Lemma run_opt ic a st :
  run ic (Opt a) st = one (accepts ic a) st ++ [st].
Proof. reflexivity. Qed.

Lemma eol_blocked ok : blocked ok (run false Eol).
Proof. intros q x r cs _. reflexivity. Qed.

(** [a+$]: the rest of the text, not empty, all in the class. *)
Lemma run_plus_eol a p s cs :
  nonempty (run false (Plus a ⋅ Eol) (mkState p s cs))
  = truthy s && forallb (accepts false a) s.
Proof.
  rewrite run_cat. cbn [run]. unfold one. cbn [rest pos caps].
  destruct s as [|x s]; [reflexivity|].
  cbn [truthy forallb]. destruct (accepts false a x); [|reflexivity].
  cbn [flat_map rest pos caps]. rewrite app_nil_r.
  change (fun st : state => match rest st with [] => [st] | _ :: _ => [] end)
    with (run false Eol).
  rewrite (star_flat_map (@eol_blocked _)).
  cbn [run rest andb].
  destruct (drop_while (accepts false a) s) eqn:D.
  - apply drop_while_nil in D. now rewrite D.
  - cbn [nonempty]. symmetry. apply not_true_iff_false. intros H.
    apply drop_while_nil in H. congruence.
Qed.

End Anchored.

Section Phone.

Lemma accepts_phone_class x : accepts false phone_class x = phone_char x.
Proof.
  unfold phone_char. cbn [accepts phone_class existsb in_item].
  now rewrite orb_false_r, !orb_assoc.
Qed.

Lemma matches_phone s : matches s re_phone = phone_shape s.
Proof.
  rewrite (@matches_bol re_phone _ s eq_refl).
  change (ignoreCase re_phone) with false.
  rewrite run_cat, run_opt. unfold one.
  cbn [rest pos caps accepts existsb in_item].
  assert (P : forall p t cs,
             nonempty (run false (Cat (Plus phone_class) Eol) (mkState p t cs))
             = phone_digits t).
  { intros. rewrite run_plus_eol. unfold phone_digits. f_equal.
    clear. induction t as [|x t IH]; cbn [forallb]; auto.
    now rewrite IH, accepts_phone_class. }
  destruct s as [|x t].
  - cbn [app flat_map]. rewrite app_nil_r, P. reflexivity.
  - rewrite orb_false_r. cbn [phone_shape].
    destruct (N.eqb x (chr "+")); cbn [app flat_map andb orb].
    + rewrite app_nil_r, nonempty_app, !P. reflexivity.
    + rewrite app_nil_r, P. reflexivity.
Qed.

End Phone.

Section Email.

Local Open Scope regex_scope.

Lemma accepts_not_space_at x : accepts false not_space_at x = email_char x.
Proof.
  unfold email_char. cbn [accepts not_space_at existsb in_item].
  now rewrite orb_false_r.
Qed.

Lemma nonempty_flat_map (A B : Type) (f : A -> list B) l :
  nonempty (flat_map f l) = true
  <-> exists x, In x l /\ nonempty (f x) = true.
Proof.
  induction l as [|y l IH]; cbn [flat_map In].
  - split; [discriminate | intros (x & [] & _)].
  - rewrite nonempty_app, orb_true_iff, IH. split.
    + intros [H|(x & Hx & H)]; [exists y | exists x]; auto.
    + intros (x & [->|Hx] & H); [left | right; exists x]; auto.
Qed.

(** The states a greedy star offers: one for each prefix inside the class. *)
Lemma in_star ok st' : forall r p cs,
  In st' (star ok p r cs)
  <-> exists g t, r = g ++ t /\ forallb ok g = true
                  /\ st' = mkState (p + List.length g) t cs.
Proof.
  induction r as [|x r IH]; intros p cs; cbn [star].
  - cbn [In]. split.
    + intros [<-|[]]. exists [], []. now rewrite Nat.add_0_r.
    + intros (g & t & E & _ & ->). symmetry in E.
      apply app_eq_nil in E as [-> ->]. left. now rewrite Nat.add_0_r.
  - destruct (ok x) eqn:X.
    + rewrite in_app_iff, IH. cbn [In]. split.
      * intros [(g & t & -> & G & ->)|[<-|[]]].
        -- exists (x :: g), t. cbn [forallb List.length app].
           rewrite X, G, Nat.add_succ_r. auto.
        -- exists [], (x :: r). now rewrite Nat.add_0_r.
      * intros (g & t & E & G & ->). destruct g as [|y g].
        -- right; left. cbn [app] in E. subst t. now rewrite Nat.add_0_r.
        -- left. cbn [app forallb] in E, G. injection E as -> ->.
           apply andb_prop in G as [_ G]. exists g, t.
           cbn [List.length]. now rewrite Nat.add_succ_r.
    + cbn [In]. split.
      * intros [<-|[]]. exists [], (x :: r). now rewrite Nat.add_0_r.
      * intros (g & t & E & G & ->). destruct g as [|y g].
        -- left. cbn [app] in E. subst t. now rewrite Nat.add_0_r.
        -- cbn [app forallb] in E, G. injection E as -> ->.
           rewrite X in G. discriminate.
Qed.

(** The states [a+] offers: one for each non-empty prefix in the class. *)
Lemma in_plus a st' p r cs :
  In st' (run false (Plus a) (mkState p r cs))
  <-> exists g t, r = g ++ t /\ g <> [] /\ forallb (accepts false a) g = true
                  /\ st' = mkState (p + List.length g) t cs.
Proof.
  cbn [run]. unfold one. cbn [rest pos caps].
  destruct r as [|x r].
  - cbn [flat_map In]. split; [intros []|].
    intros (g & t & E & N & _). symmetry in E.
    apply app_eq_nil in E as [-> _]. congruence.
  - destruct (accepts false a x) eqn:X.
    + cbn [flat_map rest pos caps]. rewrite app_nil_r, in_star. split.
      * intros (g & t & -> & G & ->). exists (x :: g), t.
        cbn [forallb List.length app]. rewrite X, G, Nat.add_succ_r.
        repeat split; auto. discriminate.
      * intros (g & t & E & N & G & ->). destruct g as [|y g]; [congruence|].
        cbn [app forallb] in E, G. injection E as -> ->.
        apply andb_prop in G as [_ G]. exists g, t.
        cbn [List.length]. now rewrite Nat.add_succ_r.
    + cbn [flat_map In]. split; [intros []|].
      intros (g & t & E & N & G & _). destruct g as [|y g]; [congruence|].
      cbn [app forallb] in E, G. injection E as -> ->.
      rewrite X in G. discriminate.
Qed.

Lemma nonempty_plus_then a R p r cs :
  nonempty (run false (Plus a ⋅ R) (mkState p r cs)) = true
  <-> exists g t, r = g ++ t /\ g <> [] /\ forallb (accepts false a) g = true
                  /\ nonempty (run false R (mkState (p + List.length g) t cs))
                     = true.
Proof.
  rewrite run_cat, nonempty_flat_map. split.
  - intros (st' & I & N). apply in_plus in I as (g & t & E & G1 & G2 & ->).
    now exists g, t.
  - intros (g & t & E & G1 & G2 & N).
    exists (mkState (p + List.length g) t cs). split; auto.
    apply in_plus. now exists g, t.
Qed.

Lemma nonempty_char_then c R p r cs :
  nonempty (run false (Chars [c] ⋅ R) (mkState p r cs)) = true
  <-> exists t, r = c :: t
                /\ nonempty (run false R (mkState (p + 1) t cs)) = true.
Proof.
  rewrite run_cat, run_chars. cbn [rest pos caps strip List.length].
  destruct r as [|x r].
  - cbn. split; [discriminate | intros (t & E & _); discriminate].
  - unfold same_char. destruct (N.eqb_spec x c) as [->|N].
    + rewrite flat_map_one. split.
      * intros H. now exists r.
      * intros (t & E & H). now injection E as <-.
    + cbn. split; [discriminate|]. intros (t & E & _). congruence.
Qed.

Lemma forallb_email_char g :
  forallb (accepts false not_space_at) g = forallb email_char g.
Proof.
  induction g as [|x g IH]; cbn [forallb]; auto.
  now rewrite IH, accepts_not_space_at.
Qed.

(** The email pattern matches exactly the texts of the email shape. *)
Lemma matches_email s : matches s re_email = true <-> email_shape s.
Proof.
  rewrite (@matches_bol re_email _ s eq_refl).
  change (ignoreCase re_email) with false.
  change (str "@") with [chr "@"]. change (str ".") with [chr "."].
  rewrite nonempty_plus_then. unfold email_shape. split.
  - intros (a & t1 & -> & A1 & A2 & H).
    apply nonempty_char_then in H as (t2 & -> & H).
    apply nonempty_plus_then in H as (b & t3 & -> & B1 & B2 & H).
    apply nonempty_char_then in H as (c & -> & H).
    rewrite run_plus_eol in H. apply andb_prop in H as [C1 C2].
    apply truthy_true in C1. rewrite forallb_email_char in *.
    exists a, b, c. auto 10.
  - intros (a & b & c & -> & A1 & B1 & C1 & A2 & B2 & C2).
    exists a, (chr "@" :: b ++ chr "." :: c).
    rewrite forallb_email_char. repeat split; auto.
    apply nonempty_char_then. eexists. split; [reflexivity|].
    apply nonempty_plus_then. exists b, (chr "." :: c).
    rewrite forallb_email_char. repeat split; auto.
    apply nonempty_char_then. eexists. split; [reflexivity|].
    rewrite run_plus_eol, forallb_email_char, C2, andb_true_r.
    now apply truthy_true.
Qed.

(** A text without an at sign is not matched by the email pattern. *)
Lemma matches_email_at s :
  matches s re_email = true -> In (chr "@") s.
Proof.
  intros H. apply matches_email in H as (a & b & c & -> & _).
  apply in_or_app. right. now left.
Qed.

End Email.

Section Prefixes.

Local Open Scope regex_scope.

Lemma strip_app ic p1 p2 s :
  strip ic (p1 ++ p2) s
  = match strip ic p1 s with Some r => strip ic p2 r | None => None end.
Proof.
  revert s; induction p1 as [|y p1 IH]; intros s; cbn [app strip]; auto.
  destruct s as [|x s]; auto. destruct (same_char ic x y); auto.
Qed.

Lemma matches_www s : matches s re_www = prefix_ci (str "www.") s.
Proof.
  rewrite (@matches_bol re_www _ s eq_refl). rewrite run_chars.
  unfold prefix_ci. cbn [rest ignoreCase re_www].
  destruct (strip true (str "www.") s); reflexivity.
Qed.

Lemma matches_http s :
  matches s re_http
  = prefix_ci (str "https://") s || prefix_ci (str "http://") s.
Proof.
  rewrite (@matches_bol re_http _ s eq_refl).
  change (ignoreCase re_http) with true.
  rewrite run_cat, run_chars. unfold prefix_ci. cbn [rest].
  change (str "https://") with (str "http" ++ str "s://").
  change (str "http://") with (str "http" ++ str "://").
  rewrite !strip_app.
  destruct (strip true (str "http") s) as [r|]; [|reflexivity].
  rewrite flat_map_one, run_cat, run_opt. unfold one. cbn [rest pos caps].
  rewrite flat_map_app, nonempty_app, flat_map_one, run_chars. cbn [rest].
  f_equal.
  - destruct r as [|x r]; [reflexivity|]. cbn [accepts].
    change (str "s://") with (chr "s" :: str "://"). cbn [strip].
    destruct (same_char true x (chr "s")); [|reflexivity].
    rewrite flat_map_one, run_chars. cbn [rest].
    destruct (strip true (str "://") r); reflexivity.
  - destruct (strip true (str "://") r); reflexivity.
Qed.

(** The URL test: one of three prefixes, in any letter case. *)
Lemma url_test_prefix s :
  url_test s
  = prefix_ci (str "https://") s || prefix_ci (str "http://") s
    || prefix_ci (str "www.") s.
Proof. unfold url_test. now rewrite matches_http, matches_www. Qed.

(** *** Which test a text can pass, from its first characters *)

Lemma prefix_ci_head y p s :
  prefix_ci (y :: p) s = true ->
  exists x t, s = x :: t /\ canonicalize x = canonicalize y
              /\ prefix_ci p t = true.
Proof.
  unfold prefix_ci. cbn [strip]. destruct s as [|x t]; [discriminate|].
  unfold same_char. destruct (N.eqb_spec (canonicalize x) (canonicalize y));
    [|discriminate].
  intros H. now exists x, t.
Qed.

Lemma tag_url s : url_test s = true -> tag s = 1.
Proof.
  rewrite url_test_prefix, !orb_true_iff. intros [[H|H]|H].
  - apply prefix_ci_head in H as (x & t & -> & E & _).
    cbn [tag]. now rewrite E.
  - apply prefix_ci_head in H as (x & t & -> & E & _).
    cbn [tag]. now rewrite E.
  - apply prefix_ci_head in H as (x & t & -> & E & H).
    apply prefix_ci_head in H as (y & t' & -> & E' & _).
    cbn [tag]. now rewrite E, E'.
Qed.

Ltac tag_of_prefix H :=
  apply startsWith_inv in H as [? ->]; reflexivity.

Lemma tag_wifi_prefix s : startsWith s (str "WIFI:") = true -> tag s = 2.
Proof. intros H. tag_of_prefix H. Qed.

Lemma tag_wifi s : wifi_test s = true -> tag s = 2.
Proof.
  unfold wifi_test, wifi_match.
  destruct (startsWith s (str "WIFI:")) eqn:E; [|discriminate].
  intros _. now apply tag_wifi_prefix.
Qed.

Lemma tag_mailto s : startsWith s (str "mailto:") = true -> tag s = 3.
Proof. intros H. tag_of_prefix H. Qed.

Lemma tag_sms s : sms_test s = true -> tag s = 5.
Proof.
  unfold sms_test. rewrite orb_true_iff. intros [H|H]; tag_of_prefix H.
Qed.

Lemma tag_geo s : geo_test s = true -> tag s = 6.
Proof. intros H. tag_of_prefix H. Qed.

Lemma tag_vcard s : vcard_test s = true -> tag s = 7.
Proof. intros H. tag_of_prefix H. Qed.

Lemma tag_event s : event_test s = true -> tag s = 8.
Proof. intros H. tag_of_prefix H. Qed.

Lemma phone_char_not_letter x :
  phone_char x = true -> (x < 65 \/ 122 < x)%N.
Proof.
  unfold phone_char, isWhiteSpace. cbn [existsb].
  change (chr "0") with 48%N. change (chr "9") with 57%N.
  change (chr "-") with 45%N. change (chr "(") with 40%N.
  change (chr ")") with 41%N.
  rewrite !orb_true_iff, !andb_true_iff, !N.eqb_eq, !N.leb_le. lia.
Qed.

Lemma tag_not_letter x t : (x < 65 \/ 122 < x)%N -> tag (x :: t) = 4.
Proof.
  intros H. cbn [tag]. unfold canonicalize.
  change (chr "H") with 72%N. change (chr "W") with 87%N.
  change (chr "m") with 109%N. change (chr "s") with 115%N.
  change (chr "g") with 103%N. change (chr "B") with 66%N.
  destruct ((97 <=? x) && (x <=? 122))%N eqn:R.
  - apply andb_prop in R as [R1 R2]. apply N.leb_le in R1, R2. lia.
  - repeat match goal with
           | |- context [N.eqb x ?k] =>
               destruct (N.eqb_spec x k); [lia|]
           end.
    reflexivity.
Qed.

Lemma tag_phone s : phone_test s = true -> tag s = 4.
Proof.
  unfold phone_test. rewrite orb_true_iff, matches_phone. intros [H|H].
  - tag_of_prefix H.
  - destruct s as [|x t]; [discriminate|]. apply tag_not_letter.
    cbn [phone_shape] in H. apply orb_prop in H as [H|H].
    + apply andb_prop in H as [H _]. apply N.eqb_eq in H as ->.
      left. reflexivity.
    + unfold phone_digits in H. cbn [truthy forallb andb] in H.
      apply andb_prop in H as [H _]. now apply phone_char_not_letter.
Qed.

End Prefixes.

(* ================================================================== *)
(** ** The classifier *)

(** One case for each [return] statement of [parseQRData], in source
    order. *)
Ltac each_return s tac :=
  unfold parseQRData, after_wifi;
  destruct (url_test s); [tac|];
  destruct (wifi_match s); [tac|];
  destruct (email_test s); [tac|];
  destruct (phone_test s); [tac|];
  destruct (sms_test s); [tac|];
  destruct (geo_test s); [tac|];
  destruct (vcard_test s); [tac|];
  destruct (event_test s); tac.

Section Classifier.

Lemma url_test_wifi_prefix s :
  startsWith s (str "WIFI:") = true -> url_test s = false.
Proof.
  intros H. apply tag_wifi_prefix in H.
  destruct (url_test s) eqn:U; auto. apply tag_url in U. congruence.
Qed.

(** With the WIFI: prefix the outcome is decided by the Wi-Fi pattern. *)
Lemma parseQRData_wifi_prefix s :
  startsWith s (str "WIFI:") = true ->
  parseQRData s
  = match match_ s re_wifi with
    | Some wifiMatch => mkQRResult s wifi (Some (wifi_parsed wifiMatch))
    | None => after_wifi s
    end.
Proof.
  intros H. unfold parseQRData, wifi_match.
  now rewrite (url_test_wifi_prefix _ H), H.
Qed.

Lemma after_wifi_wifi_prefix s :
  startsWith s (str "WIFI:") = true ->
  after_wifi s = mkQRResult s (if email_test s then email else text) None.
Proof.
  intros H. apply tag_wifi_prefix in H. unfold after_wifi.
  destruct (email_test s); auto.
  destruct (phone_test s) eqn:T1; [apply tag_phone in T1; congruence|].
  destruct (sms_test s) eqn:T2; [apply tag_sms in T2; congruence|].
  destruct (geo_test s) eqn:T3; [apply tag_geo in T3; congruence|].
  destruct (vcard_test s) eqn:T4; [apply tag_vcard in T4; congruence|].
  destruct (event_test s) eqn:T5; [apply tag_event in T5; congruence|].
  reflexivity.
Qed.

Lemma group_wifi_caps p g1 g2 g3 g4 :
  let m := mkMatch p (wifi_caps (g1, g2, g3, g4)) in
  group m 1 = Some g1 /\ group m 2 = Some g2 /\ group m 3 = Some g3
  /\ group m 4 = Some g4.
Proof. cbv. auto. Qed.

Lemma wifi_shape_prefix s g1 g2 g3 g4 :
  wifi_shape s g1 g2 g3 g4 -> startsWith s (str "WIFI:") = true.
Proof. intros (post & -> & _). reflexivity. Qed.

Lemma orElse_nil v : orElse (Some v) [] = v.
Proof. destruct v; reflexivity. Qed.

(** A text that has the shape from its first character on. *)
Lemma parseQRData_wifi_shape s g1 g2 g3 g4 :
  wifi_shape s g1 g2 g3 g4 ->
  parseQRData s
  = mkQRResult s wifi
      (Some {| security := if truthy g1 then g1 else str "nopass";
               ssid := g2;
               password := g3;
               hidden := JS.eqb g4 (str "true") |}).
Proof.
  intros H.
  rewrite parseQRData_wifi_prefix
    by now apply wifi_shape_prefix with g1 g2 g3 g4.
  apply wifi_at_shape in H. unfold match_. rewrite search_wifi_step, H.
  unfold wifi_parsed.
  destruct (group_wifi_caps 0 g1 g2 g3 g4) as (-> & -> & -> & ->).
  now rewrite !orElse_nil.
Qed.

End Classifier.

(* ================================================================== *)
(** ** The properties of the specification *)

Section Claims.

(** After the WIFI: prefix the mailto: prefix is out, so the email test
    is the email pattern alone. *)
Lemma email_test_wifi_prefix s :
  startsWith s (str "WIFI:") = true ->
  (email_test s = true <-> email_shape s).
Proof.
  intros P. apply tag_wifi_prefix in P. unfold email_test.
  destruct (startsWith s (str "mailto:")) eqn:M.
  - apply tag_mailto in M. congruence.
  - cbn [orb]. apply matches_email.
Qed.

(** C2, as stated, fails in its last part: WIFI:a@b.c starts with WIFI:,
    does not match the capture pattern, and ends as email, not as plain
    text. *)
Lemma wifi_prefix_email_counterexample :
  startsWith (str "WIFI:a@b.c") (str "WIFI:") = true
  /\ match_ (str "WIFI:a@b.c") re_wifi = None
  /\ parseQRData (str "WIFI:a@b.c")
     = mkQRResult (str "WIFI:a@b.c") email None.
Proof. vm_compute. repeat split. Qed.

(** C2 (amended). A text that starts with WIFI: and matches the capture
    pattern is classified Wi-Fi: security is the first group, or "nopass"
    when that group is empty, ssid and password are the second and third
    groups as captured, hidden is true iff the fourth group is the text
    "true".  The groups are the semicolon-free fields at the leftmost
    place where the text has the shape of the pattern.  A text that starts
    with WIFI: and does not match has that shape nowhere and falls through
    to the later tests, of which only the email test can still succeed: it
    is classified email when the whole text has the shape of an email
    address, and plain text otherwise, with no parsed fields.  The text
    WIFI:T:nopass;S:MyNet;P:;H:false;; gives ssid "MyNet", security
    "nopass", an empty password and hidden false. *)
Theorem parseQRData_wifi_capture :
  (forall s : jsstring,
     startsWith s (str "WIFI:") = true ->
     match match_ s re_wifi with
     | Some m =>
         exists g1 g2 g3 g4 w,
           group m 1 = Some g1 /\ group m 2 = Some g2 /\
           group m 3 = Some g3 /\ group m 4 = Some g4 /\
           wifi_shape (skipn (index m) s) g1 g2 g3 g4 /\
           (forall j a b c d,
              j < index m -> ~ wifi_shape (skipn j s) a b c d) /\
           parseQRData s = mkQRResult s wifi (Some w) /\
           Reader.security w
             = match g1 with [] => str "nopass" | _ :: _ => g1 end /\
           Reader.ssid w = g2 /\
           Reader.password w = g3 /\
           (Reader.hidden w = true <-> g4 = str "true")
     | None =>
         (forall j a b c d, ~ wifi_shape (skipn j s) a b c d) /\
         (email_shape s -> parseQRData s = mkQRResult s email None) /\
         (~ email_shape s -> parseQRData s = mkQRResult s text None)
     end)
  /\ parseQRData (str "WIFI:T:nopass;S:MyNet;P:;H:false;;")
     = mkQRResult (str "WIFI:T:nopass;S:MyNet;P:;H:false;;") wifi
         (Some {| Reader.ssid := str "MyNet";
                  Reader.password := [];
                  Reader.security := str "nopass";
                  Reader.hidden := false |}).
Proof.
  split; [|reflexivity].
  intros s P. rewrite (parseQRData_wifi_prefix _ P).
  unfold match_. destruct (search re_wifi 0 s) as [m|] eqn:M.
  - apply search_wifi_some in M
      as (i & [[[g1 g2] g3] g4] & _ & Hi & Hg & Ha & Hl).
    cbn [Nat.add] in Hi. subst i. destruct m as [idx gs].
    cbn [index groups] in *. subst gs.
    destruct (group_wifi_caps idx g1 g2 g3 g4) as (G1 & G2 & G3 & G4).
    exists g1, g2, g3, g4,
      (wifi_parsed (mkMatch idx (wifi_caps (g1, g2, g3, g4)))).
    unfold wifi_parsed. cbv zeta in G1, G2, G3, G4.
    rewrite G1, G2, G3, G4, !orElse_nil.
    cbn [Reader.security Reader.ssid Reader.password Reader.hidden].
    repeat split; auto.
    + now apply wifi_at_shape.
    + intros j a b c d Hj W. apply wifi_at_shape in W.
      rewrite (Hl j Hj) in W. discriminate.
    + destruct g1; reflexivity.
    + apply eqb_eq.
    + apply eqb_eq.
  - pose proof (search_wifi_none _ _ M) as N.
    pose proof (email_test_wifi_prefix _ P) as E.
    rewrite (after_wifi_wifi_prefix _ P).
    split; [|split].
    + intros j a b c d W. apply wifi_at_shape in W.
      rewrite (N j) in W. discriminate.
    + intros S. apply E in S. now rewrite S.
    + intros S. destruct (email_test s); [|reflexivity].
      exfalso. apply S, E. reflexivity.
Qed.

Lemma parseQRData_wifi_capture_witness :
  startsWith (str "WIFI:T:WPA;S:Home;P:secret;H:true;") (str "WIFI:") = true
  /\ match match_ (str "WIFI:T:WPA;S:Home;P:secret;H:true;") re_wifi with
     | Some m => group m 2 = Some (str "Home")
     | None => False
     end
  /\ type (parseQRData (str "WIFI:T:WPA;S:Home;P:secret;H:true;")) = wifi.
Proof.
  assert (P : startsWith (str "WIFI:T:WPA;S:Home;P:secret;H:true;")
                         (str "WIFI:") = true) by (vm_compute; reflexivity).
  pose proof (proj1 parseQRData_wifi_capture _ P) as H.
  assert (M : match_ (str "WIFI:T:WPA;S:Home;P:secret;H:true;") re_wifi
              = Some (mkMatch 0 [(4, str "true"); (3, str "secret");
                                 (2, str "Home"); (1, str "WPA")]))
    by (vm_compute; reflexivity).
  split; [exact P|]. split; [vm_compute; reflexivity|].
  rewrite M in H.
  destruct H as (g1 & g2 & g3 & g4 & w & _ & _ & _ & _ & _ & _ & E & _).
  rewrite E. reflexivity.
Defined.

(** *** Encode, then classify *)

Lemma not_semi_escape s :
  forallb not_semi s = true -> forallb not_semi (escapeWiFiString s) = true.
Proof.
  rewrite escapeWiFiString_one_pass.
  induction s as [|x s IH]; cbn [forallb flat_map]; auto.
  intros H. apply andb_prop in H as [Hx Hs].
  rewrite forallb_app, (IH Hs), andb_true_r.
  unfold escape_char. destruct (escaped_char x); cbn [forallb];
    rewrite Hx; reflexivity.
Qed.

Lemma payload_shape (config : WiFiConfig) :
  forallb not_semi (Wifi.ssid config) = true ->
  forallb not_semi (Wifi.password config) = true ->
  wifi_shape (generateWiFiPayload config)
             (security_str (Wifi.security config))
             (escapeWiFiString (Wifi.ssid config))
             (escapeWiFiString (Wifi.password config))
             (if Wifi.hidden config then str "true" else str "false").
Proof.
  intros H1 H2. exists (str ";").
  split; [reflexivity|]. split; [|split; [|split]].
  - destruct (Wifi.security config); reflexivity.
  - now apply not_semi_escape.
  - now apply not_semi_escape.
  - destruct (Wifi.hidden config); reflexivity.
Qed.

(** C1, as stated, fails on valid configurations: with a semicolon in the
    ssid the payload is not even classified Wi-Fi, and with a comma in the
    ssid the extracted ssid is the escaped one. *)
Lemma encode_classify_counterexample :
  let c1 := mkWiFiConfig (str "a;b") (str "pw") WPA false in
  let c2 := mkWiFiConfig (str "a,b") (str "pw") WPA false in
  isValid (validateWiFiConfig c1) = true
  /\ type (parseQRData (generateWiFiPayload c1)) = text
  /\ isValid (validateWiFiConfig c2) = true
  /\ parseQRData (generateWiFiPayload c2)
     = mkQRResult (generateWiFiPayload c2) wifi
         (Some {| Reader.ssid := str "a\,b";
                  Reader.password := str "pw";
                  Reader.security := str "WPA";
                  Reader.hidden := false |})
  /\ JS.eqb (str "a\,b") (Wifi.ssid c2) = false.
Proof. vm_compute. repeat split. Qed.

(** C1 (amended). For every WiFiConfig that passes [validateWiFiConfig]
    and has no semicolon in its ssid or password, classifying the payload
    of [generateWiFiPayload] gives category Wi-Fi; the extracted security
    and hidden equal the original ones; the extracted ssid and password
    are the escaped ssid and password, hence equal the original ones
    whenever the field holds none of the five escaped characters. *)
Theorem encode_classify_roundtrip (config : WiFiConfig) :
  isValid (validateWiFiConfig config) = true ->
  forallb not_semi (Wifi.ssid config) = true ->
  forallb not_semi (Wifi.password config) = true ->
  exists w,
    parseQRData (generateWiFiPayload config)
    = mkQRResult (generateWiFiPayload config) wifi (Some w)
    /\ Reader.security w = security_str (Wifi.security config)
    /\ Reader.hidden w = Wifi.hidden config
    /\ Reader.ssid w = escapeWiFiString (Wifi.ssid config)
    /\ Reader.password w = escapeWiFiString (Wifi.password config)
    /\ (forallb unescaped_char (Wifi.ssid config) = true ->
        Reader.ssid w = Wifi.ssid config)
    /\ (forallb unescaped_char (Wifi.password config) = true ->
        Reader.password w = Wifi.password config).
Proof.
  intros _ H1 H2.
  rewrite (parseQRData_wifi_shape (payload_shape config H1 H2)).
  eexists. split; [reflexivity|].
  cbn [Reader.security Reader.ssid Reader.password Reader.hidden].
  repeat split.
  - destruct (Wifi.security config); reflexivity.
  - destruct (Wifi.hidden config); reflexivity.
  - apply escape_unchanged.
  - apply escape_unchanged.
Qed.

Lemma encode_classify_roundtrip_witness :
  let c := mkWiFiConfig (str "Cafe, 2nd floor") (str "s3cret:pw") WPA true in
  isValid (validateWiFiConfig c) = true
  /\ forallb not_semi (Wifi.ssid c) = true
  /\ forallb not_semi (Wifi.password c) = true
  /\ exists w,
       parseQRData (generateWiFiPayload c)
       = mkQRResult (generateWiFiPayload c) wifi (Some w)
       /\ Reader.ssid w = str "Cafe\, 2nd floor"
       /\ Reader.password w = str "s3cret\:pw".
Proof.
  intros c. split; [reflexivity|]. split; [reflexivity|].
  split; [reflexivity|].
  destruct (encode_classify_roundtrip c eq_refl eq_refl eq_refl)
    as (w & E & _ & _ & S & P & _).
  exists w. split; [exact E|]. split; [exact S | exact P].
Defined.

(** *** The tests against each other *)





(** The seven tests other than the email test never overlap. *)
Lemma tests_exclusive_besides_email (s : jsstring) :
  count_true [url_test s; wifi_test s; phone_test s; sms_test s;
              geo_test s; vcard_test s; event_test s] <= 1.
Proof.
  pose proof (@tag_url s) as T1. pose proof (@tag_wifi s) as T2.
  pose proof (@tag_phone s) as T4. pose proof (@tag_sms s) as T5.
  pose proof (@tag_geo s) as T6. pose proof (@tag_vcard s) as T7.
  pose proof (@tag_event s) as T8.
  unfold count_true.
  destruct (url_test s); destruct (wifi_test s);
    destruct (phone_test s); destruct (sms_test s); destruct (geo_test s);
    destruct (vcard_test s); destruct (event_test s);
    cbn [filter List.length];
    try lia;
    repeat match goal with
           | T : true = true -> _ |- _ => specialize (T eq_refl)
           end;
    congruence.
Qed.

(** *** The phone test *)

(** C6, as stated, fails: 1+1 is made of characters of the class only and
    passes none of the earlier tests, yet is classified text, because the
    pattern takes a plus sign only as the first character. *)
Lemma phone_class_counterexample :
  url_test (str "1+1") = false
  /\ wifi_test (str "1+1") = false
  /\ email_test (str "1+1") = false
  /\ forallb claimed_phone_char (str "1+1") = true
  /\ startsWith (str "1+1") (str "tel:") = false
  /\ type (parseQRData (str "1+1")) = text.
Proof. vm_compute. repeat split. Qed.

(** C6 (amended). For every text that passed none of the earlier tests
    (URL, Wi-Fi, email), the category is phone iff the text starts with
    tel: or consists of at most one leading plus sign followed by one or
    more characters that are digits, hyphens, parentheses or white space. *)
Theorem parseQRData_phone (s : jsstring) :
  url_test s = false -> wifi_test s = false -> email_test s = false ->
  (type (parseQRData s) = phone
   <-> startsWith s (str "tel:") = true \/ phone_shape s = true).
Proof.
  intros U W E. unfold parseQRData, after_wifi. rewrite U, E.
  unfold wifi_test in W. destruct (wifi_match s); [discriminate|].
  rewrite <- matches_phone, <- orb_true_iff. fold (phone_test s).
  destruct (phone_test s); cbn [type]; [tauto|].
  destruct (sms_test s); [cbn; split; discriminate|].
  destruct (geo_test s); [cbn; split; discriminate|].
  destruct (vcard_test s); [cbn; split; discriminate|].
  destruct (event_test s); cbn; split; discriminate.
Qed.

Lemma parseQRData_phone_witness :
  url_test (str "+1 (555) 010-9999") = false
  /\ wifi_test (str "+1 (555) 010-9999") = false
  /\ email_test (str "+1 (555) 010-9999") = false
  /\ phone_shape (str "+1 (555) 010-9999") = true
  /\ type (parseQRData (str "+1 (555) 010-9999")) = phone.
Proof.
  repeat (split; [reflexivity|]).
  apply (parseQRData_phone (str "+1 (555) 010-9999") eq_refl eq_refl eq_refl).
  right. reflexivity.
Defined.

(** *** Totality, the default, the result's fields *)

(** C7. [parseQRData] returns a result on every text, and the category is
    text exactly when none of the eight tests succeeds; the text
    "plain hello world" is classified text. *)
Theorem parseQRData_default_text :
  (forall s : jsstring,
     (exists r, parseQRData s = r) /\
     (existsb (fun b => b) (category_tests s) = false
      <-> type (parseQRData s) = text)) /\
  parseQRData (str "plain hello world")
  = mkQRResult (str "plain hello world") text None.
Proof.
  split; [|reflexivity].
  intros s. split; [eexists; reflexivity|].
  unfold category_tests, wifi_test. cbn [existsb].
  each_return s ltac:(cbn; split; (discriminate || reflexivity)).
Qed.

Lemma parseQRData_default_text_witness :
  existsb (fun b => b) (category_tests (str "hello, world")) = false
  /\ type (parseQRData (str "hello, world")) = text.
Proof.
  split; [reflexivity|].
  apply (proj2 (proj1 parseQRData_default_text (str "hello, world"))).
  reflexivity.
Defined.

(** C8. The result's data field is the input text itself, and the parsed
    field is present iff the category is Wi-Fi. *)
Theorem parseQRData_data_parsed (s : jsstring) :
  data (parseQRData s) = s
  /\ (parsed (parseQRData s) <> None <-> type (parseQRData s) = wifi).
Proof.
  each_return s ltac:(cbn; intuition congruence).
Qed.

(** C9. [parseQRData] never returns the category unknown that [QRResult]
    declares: the category is one of url, wifi, email, phone, sms, geo,
    vcard, event, text. *)
Theorem parseQRData_never_unknown (s : jsstring) :
  type (parseQRData s) <> unknown
  /\ In (type (parseQRData s))
        [url; wifi; email; phone; sms; geo; vcard; event; text].
Proof.
  each_return s ltac:(cbn; intuition congruence).
Qed.

End Claims.

(* ================================================================== *)
(** ** Further properties *)

Section ReplaceFacts.

Lemma sub_succ_self p k : S (p + k) - p = S k.
Proof. lia. Qed.

(** A pattern that is one character of a class: every character of the
    class is replaced. *)
Lemma replace_atom a rep s : forall p,
  replace_from (mkRegExp (Atom a) false) rep p s 0
  = flat_map (fun x => if accepts false a x then rep else [x]) s.
Proof.
  induction s as [|x t IH]; intros p; cbn [replace_from flat_map]; auto.
  cbn [run ignoreCase body]. unfold one. cbn [rest pos caps].
  destruct (accepts false a x).
  - cbn [pos]. replace (S p - p) with 1 by lia. now rewrite IH.
  - cbn [app]. now rewrite IH.
Qed.

Lemma star_head ok : forall r p cs,
  exists l,
    star ok p r cs
    = mkState (p + List.length (take_while ok r)) (drop_while ok r) cs :: l.
Proof.
  induction r as [|x r IH]; intros p cs; cbn [star take_while drop_while].
  - exists []. now rewrite Nat.add_0_r.
  - destruct (ok x).
    + destruct (IH (S p) cs) as [l ->]. eexists.
      cbn [List.length app]. now rewrite Nat.add_succ_r.
    + exists []. now rewrite Nat.add_0_r.
Qed.

(** Dropping the rest of a match. *)
Lemma replace_skip re rep ok s : forall p,
  replace_from re rep p s (List.length (take_while ok s))
  = replace_from re rep (p + List.length (take_while ok s))
                 (drop_while ok s) 0.
Proof.
  induction s as [|x t IH]; intros p; cbn [take_while drop_while].
  - cbn [List.length]. now rewrite Nat.add_0_r.
  - destruct (ok x); cbn [List.length].
    + cbn [replace_from]. now rewrite IH, Nat.add_succ_r.
    + now rewrite Nat.add_0_r.
Qed.

Lemma squeeze_in_run ok rep s :
  squeeze ok rep true s = squeeze ok rep false (drop_while ok s).
Proof.
  induction s as [|x t IH]; cbn [squeeze drop_while]; auto.
  destruct (ok x) eqn:X; cbn [app]; auto.
  cbn [squeeze]. now rewrite X.
Qed.

Lemma drop_while_length ok s :
  List.length (drop_while ok s) <= List.length s.
Proof.
  induction s as [|x t IH]; cbn [drop_while List.length]; auto.
  destruct (ok x); cbn [List.length]; lia.
Qed.

(** A pattern that is [a+]: every maximal run of the class is replaced,
    once. *)
Lemma replace_plus a rep : forall n s p,
  List.length s <= n ->
  replace_from (mkRegExp (Plus a) false) rep p s 0
  = squeeze (accepts false a) rep false s.
Proof.
  induction n as [|n IH]; intros [|x t] p L; cbn [List.length] in L;
    try lia; try reflexivity.
  cbn [replace_from squeeze]. cbn [run ignoreCase body]. unfold one.
  cbn [rest pos caps].
  destruct (accepts false a x).
  - cbn [flat_map pos rest caps]. rewrite app_nil_r.
    destruct (star_head (accepts false a) t (S p) []) as [l ->].
    cbn [pos Nat.add]. rewrite sub_succ_self, replace_skip, IH.
    + now rewrite squeeze_in_run.
    + pose proof (drop_while_length (accepts false a) t). lia.
  - cbn [flat_map]. rewrite IH by lia. reflexivity.
Qed.

Lemma accepts_invalid x :
  accepts false (Class [One (chr "<"); One (chr ">"); One (chr ":");
                        One dquote; One (chr "/"); One backslash;
                        One (chr "|"); One (chr "?"); One (chr "*")]) x
  = forbidden_char x.
Proof. reflexivity. Qed.

Lemma accepts_space x : accepts false (Class [Space]) x = isWhiteSpace x.
Proof. cbn [accepts existsb in_item]. apply orb_false_r. Qed.

Lemma squeeze_ext ok ok' rep b s :
  (forall x, ok x = ok' x) -> squeeze ok rep b s = squeeze ok' rep b s.
Proof.
  intros E. revert b; induction s as [|x t IH]; intros b; cbn [squeeze]; auto.
  now rewrite E, !IH.
Qed.

Lemma remove_invalid s :
  replace s re_invalid [] = filter (fun x => negb (forbidden_char x)) s.
Proof.
  unfold replace, re_invalid. rewrite replace_atom.
  induction s as [|x t IH]; cbn [flat_map filter]; auto.
  rewrite accepts_invalid, IH. now destruct (forbidden_char x).
Qed.

Lemma squeeze_spaces s :
  replace s re_spaces (str "_") = squeeze isWhiteSpace (str "_") false s.
Proof.
  unfold replace, re_spaces. rewrite (@replace_plus _ _ _ s 0 (le_n _)).
  apply squeeze_ext, accepts_space.
Qed.

Lemma squeeze_clean b s :
  forallb (fun x => negb (forbidden_char x)) s = true ->
  forallb clean_char (squeeze isWhiteSpace (str "_") b s) = true.
Proof.
  revert b; induction s as [|x t IH]; intros b H; cbn [squeeze forallb] in *;
    auto.
  apply andb_prop in H as [Hx Ht].
  destruct (isWhiteSpace x) eqn:W.
  - rewrite forallb_app, (IH _ Ht), andb_true_r. now destruct b.
  - cbn [forallb]. unfold clean_char at 1. now rewrite Hx, W, (IH _ Ht).
Qed.

Lemma filter_all (f : code_unit -> bool) s : forallb f (filter f s) = true.
Proof.
  induction s as [|x t IH]; cbn [filter]; auto.
  destruct (f x) eqn:F; cbn [forallb]; auto. now rewrite F.
Qed.

Lemma trimStart_keeps s :
  forallb (fun x => negb (isWhiteSpace x)) s = true -> trimStart s = s.
Proof.
  destruct s as [|x t]; cbn [trimStart forallb]; auto.
  intros H. apply andb_prop in H as [H _]. apply negb_true_iff in H.
  now rewrite H.
Qed.

Lemma trim_keeps s :
  forallb (fun x => negb (isWhiteSpace x)) s = true -> trim s = s.
Proof.
  intros H. unfold trim, trimEnd. rewrite (trimStart_keeps _ H).
  rewrite trimStart_keeps by now rewrite forallb_rev.
  apply rev_involutive.
Qed.

Lemma clean_not_space s :
  forallb clean_char s = true ->
  forallb (fun x => negb (isWhiteSpace x)) s = true.
Proof.
  induction s as [|x t IH]; cbn [forallb]; auto.
  intros H. apply andb_prop in H as [Hx Ht]. rewrite (IH Ht).
  unfold clean_char in Hx. apply andb_prop in Hx as [_ ->]. reflexivity.
Qed.

Lemma clean_not_forbidden s :
  forallb clean_char s = true ->
  forallb (fun x => negb (forbidden_char x)) s = true.
Proof.
  induction s as [|x t IH]; cbn [forallb]; auto.
  intros H. apply andb_prop in H as [Hx Ht]. rewrite (IH Ht).
  unfold clean_char in Hx. apply andb_prop in Hx as [-> _]. reflexivity.
Qed.

(** What the two replacements compute; the [trim] after them has nothing
    left to strip. *)
Lemma sanitizeFilename_squeeze s :
  sanitizeFilename s
  = squeeze isWhiteSpace (str "_") false
      (filter (fun x => negb (forbidden_char x)) s).
Proof.
  unfold sanitizeFilename. rewrite remove_invalid, squeeze_spaces.
  apply trim_keeps, clean_not_space, squeeze_clean, filter_all.
Qed.

Lemma sanitizeFilename_clean s :
  forallb clean_char (sanitizeFilename s) = true.
Proof. rewrite sanitizeFilename_squeeze. apply squeeze_clean, filter_all. Qed.

Lemma filter_keeps (f : code_unit -> bool) s :
  forallb f s = true -> filter f s = s.
Proof.
  induction s as [|x t IH]; cbn [forallb filter]; auto.
  intros H. apply andb_prop in H as [-> Ht]. now rewrite IH.
Qed.

Lemma squeeze_keeps ok rep s :
  forallb (fun x => negb (ok x)) s = true -> squeeze ok rep false s = s.
Proof.
  induction s as [|x t IH]; cbn [forallb squeeze]; auto.
  intros H. apply andb_prop in H as [Hx Ht]. apply negb_true_iff in Hx.
  now rewrite Hx, IH.
Qed.

Lemma sanitizeFilename_keeps s :
  forallb clean_char s = true -> sanitizeFilename s = s.
Proof.
  intros H. rewrite sanitizeFilename_squeeze.
  rewrite filter_keeps by now apply clean_not_forbidden.
  apply squeeze_keeps. now apply clean_not_space.
Qed.

Lemma squeeze_nil ok rep s :
  rep <> [] -> squeeze ok rep false s = [] -> s = [].
Proof.
  intros R. destruct s as [|x t]; cbn [squeeze]; auto.
  destruct (ok x); [|discriminate].
  intros H. apply app_eq_nil in H as [H _]. contradiction.
Qed.

Lemma filter_nil (f : code_unit -> bool) s :
  filter f s = [] <-> forallb (fun x => negb (f x)) s = true.
Proof.
  induction s as [|x t IH]; cbn [filter forallb]; [tauto|].
  destruct (f x); cbn [negb andb]; [split; discriminate | exact IH].
Qed.

Lemma squeeze_length ok c b s :
  List.length (squeeze ok [c] b s) <= List.length s.
Proof.
  revert b; induction s as [|x t IH]; intros b; cbn [squeeze List.length];
    auto.
  destruct (ok x).
  - rewrite length_app. specialize (IH true).
    destruct b; cbn [List.length]; lia.
  - cbn [List.length]. specialize (IH false). lia.
Qed.

Lemma space_not_forbidden x :
  isWhiteSpace x = true -> forbidden_char x = false.
Proof.
  unfold isWhiteSpace, forbidden_char. cbn [existsb].
  change (chr "<") with 60%N. change (chr ">") with 62%N.
  change (chr ":") with 58%N. change dquote with 34%N.
  change (chr "/") with 47%N. change backslash with 92%N.
  change (chr "|") with 124%N. change (chr "?") with 63%N.
  change (chr "*") with 42%N.
  rewrite !orb_true_iff, !orb_false_iff, !andb_true_iff, !N.eqb_eq,
    !N.eqb_neq, !N.leb_le.
  lia.
Qed.

Lemma forallb_space_not_forbidden s :
  forallb isWhiteSpace s = true ->
  forallb (fun x => negb (forbidden_char x)) s = forallb isWhiteSpace s.
Proof.
  induction s as [|x t IH]; cbn [forallb]; auto.
  intros H. apply andb_prop in H as [Hx Ht].
  now rewrite (space_not_forbidden _ Hx), Hx, IH.
Qed.

Lemma forallb_negb_negb (f : code_unit -> bool) s :
  forallb (fun x => negb (negb (f x))) s = forallb f s.
Proof.
  induction s as [|x t IH]; cbn [forallb]; auto.
  now rewrite negb_involutive, IH.
Qed.

End ReplaceFacts.

Section EscapeFacts.

Lemma escaped_backslash x :
  escaped_char x = false -> N.eqb x backslash = false /\ N.eqb x (chr ";") = false.
Proof.
  unfold escaped_char. intros H.
  repeat (apply orb_false_elim in H as [H ?]). auto.
Qed.

Lemma unescape_escape s : unescape (escapeWiFiString s) = s.
Proof.
  rewrite escapeWiFiString_one_pass.
  induction s as [|x t IH]; cbn [flat_map]; auto.
  unfold escape_char at 1. destruct (escaped_char x) eqn:E; cbn [app unescape].
  - rewrite N.eqb_refl. now rewrite IH.
  - destruct (escaped_backslash _ E) as [-> _]. now rewrite IH.
Qed.

Lemma read_field_escape s r :
  read_field (escapeWiFiString s ++ chr ";" :: r) = Some (s, r).
Proof.
  rewrite escapeWiFiString_one_pass.
  induction s as [|x t IH]; cbn [flat_map app].
  - cbn [read_field]. now rewrite N.eqb_refl.
  - unfold escape_char at 1. destruct (escaped_char x) eqn:E;
      cbn [app read_field].
    + change (N.eqb backslash (chr ";")) with false. cbn iota.
      rewrite N.eqb_refl. now rewrite IH.
    + destruct (escaped_backslash _ E) as [-> ->]. now rewrite IH.
Qed.

Lemma escape_length s :
  List.length (escapeWiFiString s)
  = List.length s + List.length (filter escaped_char s).
Proof.
  rewrite escapeWiFiString_one_pass.
  induction s as [|x t IH]; cbn [flat_map filter List.length]; auto.
  rewrite length_app, IH. unfold escape_char.
  destruct (escaped_char x); cbn [List.length]; lia.
Qed.

Lemma filter_length_le (f : code_unit -> bool) s :
  List.length (filter f s) <= List.length s.
Proof.
  induction s as [|x t IH]; cbn [filter List.length]; auto.
  destruct (f x); cbn [List.length]; lia.
Qed.

Lemma filter_length_zero (f : code_unit -> bool) s :
  List.length (filter f s) = 0 -> forallb (fun x => negb (f x)) s = true.
Proof.
  induction s as [|x t IH]; cbn [filter forallb]; auto.
  destruct (f x); cbn [List.length negb andb]; [discriminate | exact IH].
Qed.

Lemma security_str_escape sec :
  escapeWiFiString (security_str sec) = security_str sec.
Proof. destruct sec; reflexivity. Qed.

Lemma read_payload_generate (config : WiFiConfig) :
  read_payload (generateWiFiPayload config)
  = Some (security_str (Wifi.security config), Wifi.ssid config,
          Wifi.password config,
          if Wifi.hidden config then str "true" else str "false").
Proof.
  unfold generateWiFiPayload, read_payload. cbv zeta.
  rewrite (proj2 (strip_exact (str "WIFI:T:") _ _) eq_refl).
  rewrite <- (security_str_escape (Wifi.security config)) at 1.
  change (str ";S:" ++ ?x) with (chr ";" :: str "S:" ++ x).
  rewrite read_field_escape.
  rewrite (proj2 (strip_exact (str "S:") _ _) eq_refl).
  change (str ";P:" ++ ?x) with (chr ";" :: str "P:" ++ x).
  rewrite read_field_escape.
  rewrite (proj2 (strip_exact (str "P:") _ _) eq_refl).
  change (str ";H:" ++ ?x) with (chr ";" :: str "H:" ++ x).
  rewrite read_field_escape.
  rewrite (proj2 (strip_exact (str "H:") _ _) eq_refl).
  destruct (Wifi.hidden config); reflexivity.
Qed.

End EscapeFacts.

Section MoreValidators.

Import Wifi.

(** The four checks of [validateWiFiConfig], as one boolean. *)
Lemma validateWiFiConfig_valid (config : WiFiConfig) :
  isValid (validateWiFiConfig config)
  = truthy (trim (ssid config))
    && (List.length (ssid config) <=? 32)
    && (is_nopass (security config) || truthy (password config))
    && (List.length (password config) <=? 63).
Proof.
  unfold validateWiFiConfig. cbv zeta.
  rewrite (Nat.leb_antisym 32 (List.length (ssid config))).
  rewrite (Nat.leb_antisym 63 (List.length (password config))).
  destruct (truthy (trim (ssid config)));
    destruct (32 <? List.length (ssid config));
    destruct (is_nopass (security config));
    destruct (password config) as [|x pw]; cbn [truthy negb andb orb];
    try reflexivity;
    destruct (63 <? List.length (x :: pw)); reflexivity.
Qed.

Lemma validateQRContent_valid (content : jsstring) :
  isValid (QRCode.validateQRContent content)
  = truthy (trim content) && (List.length content <=? 2000).
Proof.
  unfold QRCode.validateQRContent. cbv zeta.
  rewrite (Nat.leb_antisym 2000 (List.length content)).
  destruct (truthy (trim content));
    destruct (2000 <? List.length content); reflexivity.
Qed.

End MoreValidators.

Section MoreProperties.

(** X1. Escaping loses nothing: two texts with the same escaped form are
    the same text. *)
Theorem escapeWiFiString_injective (a b : jsstring) :
  escapeWiFiString a = escapeWiFiString b <-> a = b.
Proof.
  split; [|now intros ->].
  intros H. rewrite <- (unescape_escape a), <- (unescape_escape b).
  now rewrite H.
Qed.

(** X2. Escaping adds one character for each of the five special ones and
    nothing else, so the result has between one and two times the length
    of the text; it leaves the text unchanged exactly when the text has
    none of the five. *)
Theorem escapeWiFiString_size (s : jsstring) :
  List.length (escapeWiFiString s)
  = List.length s + List.length (filter escaped_char s)
  /\ List.length s <= List.length (escapeWiFiString s) <= 2 * List.length s
  /\ (escapeWiFiString s = s <-> forallb unescaped_char s = true).
Proof.
  pose proof (escape_length s) as L.
  pose proof (filter_length_le escaped_char s) as B.
  split; [exact L|]. split; [lia|]. split.
  - intros E. rewrite E in L. apply filter_length_zero. lia.
  - apply escape_unchanged.
Qed.

Lemma security_str_injective s1 s2 :
  security_str s1 = security_str s2 -> s1 = s2.
Proof.
  destruct s1, s2; intros H; try reflexivity;
    apply eqb_eq in H; vm_compute in H; discriminate H.
Qed.

(** X3. The payload determines the configuration: two configurations with
    the same payload are equal. *)
Theorem generateWiFiPayload_injective (c1 c2 : WiFiConfig) :
  generateWiFiPayload c1 = generateWiFiPayload c2 <-> c1 = c2.
Proof.
  split; [|now intros ->].
  intros H. apply (f_equal read_payload) in H.
  rewrite !read_payload_generate in H. injection H as Hs Hn Hp Hh.
  destruct c1 as [n1 p1 s1 h1], c2 as [n2 p2 s2 h2].
  cbn [Wifi.ssid Wifi.password Wifi.security Wifi.hidden] in *.
  apply security_str_injective in Hs. subst. f_equal.
  destruct h1, h2; try reflexivity;
    apply eqb_eq in Hh; vm_compute in Hh; discriminate Hh.
Qed.

Lemma payload_length (config : WiFiConfig) :
  List.length (generateWiFiPayload config)
  <= 29 + 2 * List.length (Wifi.ssid config)
     + 2 * List.length (Wifi.password config).
Proof.
  unfold generateWiFiPayload. cbv zeta. rewrite !length_app.
  pose proof (escape_length (Wifi.ssid config)).
  pose proof (escape_length (Wifi.password config)).
  pose proof (filter_length_le escaped_char (Wifi.ssid config)).
  pose proof (filter_length_le escaped_char (Wifi.password config)).
  assert (List.length (security_str (Wifi.security config)) <= 6)
    by (destruct (Wifi.security config); cbn; lia).
  assert (List.length (if Wifi.hidden config then str "true" else str "false")
          <= 5) by (destruct (Wifi.hidden config); cbn; lia).
  change (List.length (str "WIFI:T:")) with 7.
  change (List.length (str ";S:")) with 3.
  change (List.length (str ";P:")) with 3.
  change (List.length (str ";H:")) with 3.
  change (List.length (str ";;")) with 2.
  lia.
Qed.

Lemma payload_not_blank (config : WiFiConfig) :
  truthy (trim (generateWiFiPayload config)) = true.
Proof.
  apply truthy_true. intros H. apply trim_nil in H. discriminate H.
Qed.

Lemma valid_config_content (config : WiFiConfig) :
  isValid (validateWiFiConfig config) = true ->
  List.length (generateWiFiPayload config) <= 219
  /\ isValid (QRCode.validateQRContent (generateWiFiPayload config)) = true.
Proof.
  rewrite validateWiFiConfig_valid, !andb_true_iff, !Nat.leb_le.
  intros [[[_ Hs] _] Hp].
  pose proof (payload_length config) as L.
  split; [lia|].
  rewrite validateQRContent_valid, payload_not_blank. apply Nat.leb_le. lia.
Qed.

(** X4. The payload of a configuration that passes [validateWiFiConfig]
    has at most 219 characters and passes [validateQRContent] with no
    error: for Wi-Fi input the content check never stops a valid
    configuration. *)
Theorem valid_config_valid_content (config : WiFiConfig) :
  isValid (validateWiFiConfig config) = true ->
  List.length (generateWiFiPayload config) <= 219
  /\ isValid (QRCode.validateQRContent (generateWiFiPayload config)) = true
  /\ errors (QRCode.validateQRContent (generateWiFiPayload config)) = [].
Proof.
  intros V. destruct (valid_config_content config V) as [L C].
  repeat split; auto. now apply length_zero_nil.
Qed.

Lemma valid_config_valid_content_witness :
  let c := mkWiFiConfig (str "Home; 5GHz") (str "pass:word") WPA false in
  isValid (validateWiFiConfig c) = true
  /\ List.length (generateWiFiPayload c) <= 219
  /\ isValid (QRCode.validateQRContent (generateWiFiPayload c)) = true.
Proof.
  intros c.
  assert (V : isValid (validateWiFiConfig c) = true)
    by (vm_compute; reflexivity).
  destruct (valid_config_valid_content c V) as (L & C & _).
  auto.
Defined.

(** X5. A configuration passes [validateWiFiConfig] exactly when its ssid
    is not blank and has at most 32 characters, its password has at most
    63 characters, and the password is not empty unless security is
    nopass; the hidden flag plays no part. *)
Theorem validateWiFiConfig_valid_iff (config : WiFiConfig) :
  (isValid (validateWiFiConfig config) = true
   <-> forallb isWhiteSpace (Wifi.ssid config) = false
       /\ List.length (Wifi.ssid config) <= 32
       /\ (Wifi.security config = nopass \/ Wifi.password config <> [])
       /\ List.length (Wifi.password config) <= 63)
  /\ forall h,
       validateWiFiConfig
         (mkWiFiConfig (Wifi.ssid config) (Wifi.password config)
                       (Wifi.security config) h)
       = validateWiFiConfig config.
Proof.
  split; [|reflexivity].
  rewrite validateWiFiConfig_valid, !andb_true_iff, !Nat.leb_le,
    orb_true_iff, !truthy_true.
  assert (S : trim (Wifi.ssid config) <> []
              <-> forallb isWhiteSpace (Wifi.ssid config) = false).
  { rewrite trim_nil. apply not_true_iff_false. }
  assert (N : is_nopass (Wifi.security config) = true
              <-> Wifi.security config = nopass).
  { destruct (Wifi.security config); cbn; split; congruence. }
  rewrite S, N. tauto.
Qed.

(** X6. [validateWiFiConfig] never reports both password messages, so it
    reports at most three messages at once. *)
Theorem validateWiFiConfig_password_messages (config : WiFiConfig) :
  ~ (In (str "Password is required for secured networks")
        (errors (validateWiFiConfig config))
     /\ In (str "Password cannot exceed 63 characters")
           (errors (validateWiFiConfig config)))
  /\ List.length (errors (validateWiFiConfig config)) <= 3.
Proof.
  pose proof messages_distinct as (D12 & D13 & D14 & D23 & D24 & D34).
  unfold validateWiFiConfig. cbv zeta in *.
  set (m1 := str "SSID is required") in *.
  set (m2 := str "SSID cannot exceed 32 characters") in *.
  set (m3 := str "Password is required for secured networks") in *.
  set (m4 := str "Password cannot exceed 63 characters") in *.
  clearbody m1 m2 m3 m4.
  destruct (Wifi.password config) as [|x pw]; cbn [truthy negb andb];
    rewrite ?andb_false_r;
    destruct (negb (truthy (trim (Wifi.ssid config))));
    destruct (32 <? List.length (Wifi.ssid config));
    destruct (negb (is_nopass (Wifi.security config)));
    try destruct (63 <? List.length (x :: pw));
    cbn [errors push app In List.length andb];
    (split; [intuition congruence | lia]).
Qed.

(** X7. [sanitizeFilename] deletes the nine forbidden characters and then
    turns every maximal run of white space into a single underscore; the
    [trim] it ends with never has anything to strip, so white space at
    either end of the name comes out as an underscore. *)
Theorem sanitizeFilename_meaning (filename : jsstring) :
  sanitizeFilename filename
  = squeeze isWhiteSpace (str "_") false
      (filter (fun x => negb (forbidden_char x)) filename)
  /\ sanitizeFilename filename
     = replace (replace filename re_invalid []) re_spaces (str "_").
Proof.
  split; [apply sanitizeFilename_squeeze|].
  rewrite sanitizeFilename_squeeze, remove_invalid, squeeze_spaces.
  reflexivity.
Qed.

(** X8. The result of [sanitizeFilename] holds no forbidden character and
    no white space, and is never longer than the name. *)
Theorem sanitizeFilename_result (filename : jsstring) :
  forallb (fun x => negb (forbidden_char x) && negb (isWhiteSpace x))
          (sanitizeFilename filename) = true
  /\ List.length (sanitizeFilename filename) <= List.length filename.
Proof.
  split; [apply sanitizeFilename_clean|].
  rewrite sanitizeFilename_squeeze.
  pose proof (filter_length_le (fun x => negb (forbidden_char x)) filename).
  pose proof (squeeze_length isWhiteSpace (chr "_") false
                (filter (fun x => negb (forbidden_char x)) filename)).
  change (str "_") with [chr "_"]. lia.
Qed.

(** X9. [sanitizeFilename] leaves a name unchanged exactly when the name
    holds no forbidden character and no white space, and sanitizing twice
    is the same as sanitizing once. *)
Theorem sanitizeFilename_fixed_points (filename : jsstring) :
  (sanitizeFilename filename = filename
   <-> forallb clean_char filename = true)
  /\ sanitizeFilename (sanitizeFilename filename) = sanitizeFilename filename.
Proof.
  split; [split|].
  - intros E. rewrite <- E. apply sanitizeFilename_clean.
  - apply sanitizeFilename_keeps.
  - apply sanitizeFilename_keeps, sanitizeFilename_clean.
Qed.

Lemma sanitizeFilename_nil (filename : jsstring) :
  sanitizeFilename filename = [] <-> forallb forbidden_char filename = true.
Proof.
  rewrite sanitizeFilename_squeeze. split.
  - intros E. apply squeeze_nil in E; [|discriminate].
    apply filter_nil in E. now rewrite forallb_negb_negb in E.
  - intros H. rewrite (proj2 (filter_nil _ filename)); [reflexivity|].
    now rewrite forallb_negb_negb.
Qed.

(** X10. [sanitizeFilename] returns the empty name exactly when every
    character of the name is forbidden (the empty name included); a name
    of white space only becomes one underscore. *)
Theorem sanitizeFilename_empty (filename : jsstring) :
  (sanitizeFilename filename = []
   <-> forallb forbidden_char filename = true)
  /\ (filename <> [] -> forallb isWhiteSpace filename = true ->
      sanitizeFilename filename = str "_").
Proof.
  split; [apply sanitizeFilename_nil|].
  rewrite sanitizeFilename_squeeze.
  intros N W. rewrite filter_keeps.
  - destruct filename as [|x t]; [congruence|]. cbn [squeeze forallb] in *.
    apply andb_prop in W as [-> W]. rewrite squeeze_in_run.
    rewrite (proj2 (drop_while_nil isWhiteSpace t) W). reflexivity.
  - rewrite <- W. apply forallb_space_not_forbidden. exact W.
Qed.

Lemma sanitizeFilename_empty_witness :
  sanitizeFilename (str "   ") = str "_"
  /\ sanitizeFilename (str "<?>") = [].
Proof.
  split.
  - apply (proj2 (sanitizeFilename_empty (str "   ")));
      [discriminate | vm_compute; reflexivity].
  - vm_compute. reflexivity.
Defined.

End MoreProperties.

Section Categories.

Lemma strip_ci p : forall s t,
  strip true p s = Some t
  <-> exists a, s = a ++ t /\ map canonicalize a = map canonicalize p.
Proof.
  induction p as [|y p IH]; intros s t; cbn [strip].
  - split.
    + intros H; injection H as ->. now exists [].
    + intros (a & -> & E). destruct a; [reflexivity | discriminate].
  - destruct s as [|x s].
    + split; [discriminate|]. intros (a & E & M).
      destruct a; [discriminate M | discriminate E].
    + unfold same_char.
      destruct (N.eqb_spec (canonicalize x) (canonicalize y)) as [C|C].
      * rewrite IH. split.
        -- intros (a & -> & M). exists (x :: a). cbn [map app].
           now rewrite C, M.
        -- intros (a & E & M). destruct a as [|x' a]; [discriminate M|].
           cbn [app map] in E, M. injection E as <- ->.
           injection M as _ M. now exists a.
      * split; [discriminate|]. intros (a & E & M).
        destruct a as [|x' a]; [discriminate M|].
        cbn [app map] in E, M. injection E as <- ->.
        injection M as M _. contradiction.
Qed.

Lemma prefix_ci_iff p s : prefix_ci p s = true <-> starts_with_ci s p.
Proof.
  unfold prefix_ci, starts_with_ci. split.
  - destruct (strip true p s) as [t|] eqn:E; [|discriminate].
    intros _. apply strip_ci in E as (a & -> & M). now exists a, t.
  - intros (a & t & E & M).
    rewrite (proj2 (strip_ci p s t)); [reflexivity|]. now exists a.
Qed.

Lemma type_url s : type (parseQRData s) = url <-> url_test s = true.
Proof. each_return s ltac:(cbn; split; congruence). Qed.

Lemma phone_shape_chars s :
  phone_shape s = true ->
  forallb (fun x => N.eqb x (chr "+") || phone_char x) s = true.
Proof.
  assert (D : forall t, phone_digits t = true ->
                        forallb (fun x => N.eqb x (chr "+") || phone_char x) t
                        = true).
  { intros t H. unfold phone_digits in H. apply andb_prop in H as [_ H].
    induction t as [|x t IH]; cbn [forallb] in *; auto.
    apply andb_prop in H as [-> H]. now rewrite orb_true_r, IH. }
  destruct s as [|x t]; [discriminate|]. cbn [phone_shape].
  intros H. apply orb_prop in H as [H|H]; [|now apply D].
  apply andb_prop in H as [E H]. cbn [forallb]. rewrite E. now apply D.
Qed.

Lemma phone_shape_not_email s :
  phone_shape s = true -> matches s re_email = false.
Proof.
  intros H. apply not_true_iff_false. intros M.
  apply matches_email_at in M. apply phone_shape_chars in H.
  rewrite forallb_forall in H. specialize (H _ M).
  apply orb_prop in H as [H|H]; [discriminate H|].
  vm_compute in H. discriminate H.
Qed.

Lemma not_matches_email s :
  matches s re_email = false <-> ~ email_shape s.
Proof.
  rewrite <- matches_email. symmetry. apply not_true_iff_false.
Qed.

(** After a successful test that fixes the tag, the tests of the other
    tags fail. *)
Lemma tests_by_tag s n :
  tag s = n ->
  (n <> 1 -> url_test s = false) /\
  (n <> 2 -> wifi_match s = None) /\
  (n <> 3 -> startsWith s (str "mailto:") = false) /\
  (n <> 4 -> phone_test s = false) /\
  (n <> 5 -> sms_test s = false) /\
  (n <> 6 -> geo_test s = false) /\
  (n <> 7 -> vcard_test s = false) /\
  (n <> 8 -> event_test s = false).
Proof.
  intros T. repeat split; intros N.
  - destruct (url_test s) eqn:E; auto. apply tag_url in E. congruence.
  - pose proof (@tag_wifi s) as W. unfold wifi_test in W.
    destruct (wifi_match s); auto. specialize (W eq_refl). congruence.
  - destruct (startsWith s (str "mailto:")) eqn:E; auto.
    apply tag_mailto in E. congruence.
  - destruct (phone_test s) eqn:E; auto. apply tag_phone in E. congruence.
  - destruct (sms_test s) eqn:E; auto. apply tag_sms in E. congruence.
  - destruct (geo_test s) eqn:E; auto. apply tag_geo in E. congruence.
  - destruct (vcard_test s) eqn:E; auto. apply tag_vcard in E. congruence.
  - destruct (event_test s) eqn:E; auto. apply tag_event in E. congruence.
Qed.

End Categories.

Section CategoryProperties.

(** X11. The category is url exactly when the text starts with http://,
    https:// or www. in any mix of upper and lower case. *)
Theorem parseQRData_url_iff (s : jsstring) :
  type (parseQRData s) = url
  <-> starts_with_ci s (str "http://") \/ starts_with_ci s (str "https://")
      \/ starts_with_ci s (str "www.").
Proof.
  rewrite type_url, url_test_prefix, !orb_true_iff, !prefix_ci_iff. tauto.
Qed.

Ltac fall_through s H :=
  unfold parseQRData, after_wifi in H;
  destruct (url_test s) eqn:T1; [discriminate H|];
  destruct (wifi_match s) eqn:T2; [discriminate H|];
  destruct (email_test s) eqn:T3; try discriminate H;
  destruct (phone_test s) eqn:T4; try discriminate H;
  destruct (sms_test s) eqn:T5; try discriminate H;
  destruct (geo_test s) eqn:T6; try discriminate H;
  destruct (vcard_test s) eqn:T7; try discriminate H;
  destruct (event_test s) eqn:T8; try discriminate H.

Lemma email_test_false s :
  email_test s = false -> ~ email_shape s.
Proof.
  unfold email_test. intros H. apply orb_false_elim in H as [_ H].
  now apply not_matches_email.
Qed.

Lemma email_test_by_shape s :
  startsWith s (str "mailto:") = false -> ~ email_shape s ->
  email_test s = false.
Proof.
  intros M E. unfold email_test. rewrite M.
  now apply not_matches_email in E.
Qed.

(** The outcome once the tag of a successful prefix test is known and the
    email pattern is out of the way. *)
Lemma parseQRData_by_tag s n :
  tag s = n -> 4 <= n -> ~ email_shape s ->
  parseQRData s
  = mkQRResult s
      (if phone_test s then phone else if sms_test s then sms
       else if geo_test s then geo else if vcard_test s then vcard
       else if event_test s then event else text) None.
Proof.
  intros T N E.
  destruct (@tests_by_tag s n T) as (U & W & M & _).
  unfold parseQRData, after_wifi.
  rewrite U, W by lia. rewrite (@email_test_by_shape s (M ltac:(lia)) E).
  destruct (phone_test s); auto. destruct (sms_test s); auto.
  destruct (geo_test s); auto. destruct (vcard_test s); auto.
  destruct (event_test s); auto.
Qed.

Ltac prefix_category s tag_lemma :=
  split;
  [ intros H; split;
    [ fall_through s H; reflexivity
    | fall_through s H; eapply email_test_false; eassumption ]
  | intros [T E]; pose proof (tag_lemma s T) as G;
    rewrite (@parseQRData_by_tag s _ G) by (assumption || lia);
    destruct (@tests_by_tag s _ G) as (_ & _ & _ & T4 & T5 & T6 & T7 & T8);
    rewrite ?T4, ?T5, ?T6, ?T7, ?T8 by lia; rewrite T; reflexivity ].

Lemma type_sms s :
  type (parseQRData s) = sms <-> sms_test s = true /\ ~ email_shape s.
Proof. prefix_category s tag_sms. Qed.

Lemma type_geo s :
  type (parseQRData s) = geo <-> geo_test s = true /\ ~ email_shape s.
Proof. prefix_category s tag_geo. Qed.

Lemma type_vcard s :
  type (parseQRData s) = vcard <-> vcard_test s = true /\ ~ email_shape s.
Proof. prefix_category s tag_vcard. Qed.

Lemma type_event s :
  type (parseQRData s) = event <-> event_test s = true /\ ~ email_shape s.
Proof. prefix_category s tag_event. Qed.

(** X12. The category is sms, geo, vcard or event exactly when the text
    starts with the prefix of that category and does not have the shape of
    an email address (which the email test, placed earlier, would take). *)
Theorem parseQRData_prefix_categories (s : jsstring) :
  (type (parseQRData s) = sms
   <-> (startsWith s (str "sms:") = true \/ startsWith s (str "smsto:") = true)
       /\ ~ email_shape s) /\
  (type (parseQRData s) = geo
   <-> startsWith s (str "geo:") = true /\ ~ email_shape s) /\
  (type (parseQRData s) = vcard
   <-> startsWith s (str "BEGIN:VCARD") = true /\ ~ email_shape s) /\
  (type (parseQRData s) = event
   <-> startsWith s (str "BEGIN:VEVENT") = true /\ ~ email_shape s).
Proof.
  rewrite <- orb_true_iff.
  exact (conj (type_sms s) (conj (type_geo s)
               (conj (type_vcard s) (type_event s)))).
Qed.

(** X13. The category is phone exactly when the text has the shape of the
    phone pattern, or starts with tel: and does not have the shape of an
    email address. *)
Theorem parseQRData_phone_iff (s : jsstring) :
  type (parseQRData s) = phone
  <-> phone_shape s = true
      \/ (startsWith s (str "tel:") = true /\ ~ email_shape s).
Proof.
  split.
  - intros H.
    assert (T : phone_test s = true /\ email_test s = false)
      by (fall_through s H; auto).
    destruct T as [T4 T3]. pose proof (@email_test_false s T3) as E.
    unfold phone_test in T4. rewrite matches_phone in T4.
    apply orb_prop in T4 as [T|T]; auto.
  - intros H.
    assert (P : phone_test s = true).
    { unfold phone_test. rewrite matches_phone. destruct H as [->|[-> _]];
        auto using orb_true_r. }
    assert (E : ~ email_shape s).
    { destruct H as [H|[_ H]]; auto.
      now apply not_matches_email, phone_shape_not_email. }
    rewrite (@parseQRData_by_tag s _ (@tag_phone s P)) by (auto; lia).
    now rewrite P.
Qed.

(** X14. The category is email exactly when the text starts with mailto:,
    or has the shape of an email address and passes neither the URL test
    nor the Wi-Fi test. *)
Theorem parseQRData_email_iff (s : jsstring) :
  type (parseQRData s) = email
  <-> startsWith s (str "mailto:") = true
      \/ (email_shape s /\ url_test s = false /\ wifi_test s = false).
Proof.
  unfold wifi_test. split.
  - intros H. unfold parseQRData, after_wifi in H.
    destruct (url_test s) eqn:T1; [discriminate H|].
    destruct (wifi_match s) eqn:T2; [discriminate H|].
    destruct (email_test s) eqn:T3.
    + unfold email_test in T3. apply orb_prop in T3 as [T|T]; auto.
      apply matches_email in T. auto.
    + destruct (phone_test s); [discriminate H|].
      destruct (sms_test s); [discriminate H|].
      destruct (geo_test s); [discriminate H|].
      destruct (vcard_test s); [discriminate H|].
      destruct (event_test s); discriminate H.
  - intros [M|(E & U & W)].
    + destruct (@tests_by_tag s _ (@tag_mailto s M)) as (U & W & _).
      unfold parseQRData, after_wifi, email_test.
      rewrite U, W, M by lia. reflexivity.
    + unfold parseQRData, after_wifi, email_test. rewrite U.
      destruct (wifi_match s); [discriminate W|].
      apply matches_email in E. rewrite E, orb_true_r. reflexivity.
Qed.

End CategoryProperties.

Section PayloadClassified.

Lemma search_wifi_nowhere s :
  (forall i, wifi_at (skipn i s) = None) ->
  forall p, search re_wifi p s = None.
Proof.
  induction s as [|x t IH]; intros N p; rewrite search_wifi_step.
  - pose proof (N 0) as N0. cbn [skipn] in N0. now rewrite N0.
  - pose proof (N 0) as N0. cbn [skipn] in N0. rewrite N0.
    apply IH. intros i. exact (N (S i)).
Qed.

Lemma head_is_app c s1 s2 :
  head_is c (s1 ++ s2)
  = match s1 with [] => head_is c s2 | _ :: _ => head_is c s1 end.
Proof. destruct s1; reflexivity. Qed.

Lemma has_pair_app a b s1 s2 :
  head_is b s2 = false ->
  has_pair a b (s1 ++ s2) = has_pair a b s1 || has_pair a b s2.
Proof.
  intros H. induction s1 as [|x t IH]; cbn [app has_pair]; auto.
  rewrite IH, head_is_app, orb_assoc. destruct t; [|reflexivity].
  cbn [head_is]. now rewrite H.
Qed.

Lemma has_pair_skipn a b s : forall i,
  has_pair a b (skipn i s) = true -> has_pair a b s = true.
Proof.
  induction s as [|x t IH]; intros [|i]; cbn [skipn]; auto.
  intros H. cbn [has_pair]. rewrite (IH _ H). apply orb_true_r.
Qed.

(** An escaped text never starts with one of the four escaped characters
    other than the backslash. *)
Lemma escape_head c s :
  escaped_char c = true -> c <> backslash ->
  head_is c (escapeWiFiString s) = false.
Proof.
  intros E B. rewrite escapeWiFiString_one_pass.
  destruct s as [|x t]; [reflexivity|]. cbn [flat_map].
  unfold escape_char. destruct (escaped_char x) eqn:X; cbn [app head_is].
  - apply N.eqb_neq. congruence.
  - apply N.eqb_neq. intros ->. congruence.
Qed.

Lemma escape_app a b :
  escapeWiFiString (a ++ b) = escapeWiFiString a ++ escapeWiFiString b.
Proof. rewrite !escapeWiFiString_one_pass. apply flat_map_app. Qed.

Lemma escape_cons x t :
  escapeWiFiString (x :: t) = escape_char x ++ escapeWiFiString t.
Proof. now rewrite !escapeWiFiString_one_pass. Qed.

(** In an escaped text a colon always follows a backslash. *)
Lemma escape_no_pair a s :
  a <> backslash -> has_pair a (chr ":") (escapeWiFiString s) = false.
Proof.
  intros A. induction s as [|x t IH]; [reflexivity|].
  rewrite escape_cons.
  rewrite has_pair_app by now apply escape_head.
  rewrite IH, orb_false_r. unfold escape_char.
  destruct (escaped_char x); cbn [has_pair head_is];
    rewrite ?andb_false_r, ?orb_false_r; auto.
  rewrite (proj2 (N.eqb_neq backslash a)) by congruence. reflexivity.
Qed.

Lemma head_escape_then c s r :
  escaped_char c = true -> c <> backslash ->
  head_is c r = false -> head_is c (escapeWiFiString s ++ r) = false.
Proof.
  intros E B R. rewrite head_is_app.
  pose proof (escape_head s E B) as H.
  destruct (escapeWiFiString s); auto.
Qed.

Lemma payload_split config :
  generateWiFiPayload config = str "WIFI" ++ payload_tail config.
Proof. reflexivity. Qed.

(** After WIFI: the payload has no I directly followed by a colon. *)
Lemma payload_tail_no_pair config :
  has_pair (chr "I") (chr ":") (payload_tail config) = false.
Proof.
  unfold payload_tail.
  assert (I : chr "I" <> backslash) by discriminate.
  assert (E : escaped_char (chr ":") = true) by reflexivity.
  assert (B : chr ":" <> backslash) by discriminate.
  rewrite has_pair_app
    by (destruct (Wifi.security config); reflexivity).
  rewrite has_pair_app by reflexivity.
  rewrite has_pair_app by (apply head_escape_then; auto).
  rewrite has_pair_app by reflexivity.
  rewrite has_pair_app by (apply head_escape_then; auto).
  rewrite has_pair_app by reflexivity.
  rewrite has_pair_app
    by (destruct (Wifi.hidden config); reflexivity).
  rewrite has_pair_app by reflexivity.
  rewrite !(escape_no_pair _ I).
  destruct (Wifi.security config), (Wifi.hidden config); reflexivity.
Qed.

Lemma strip_wifi_pair s r :
  strip false (str "WIFI:T:") s = Some r ->
  has_pair (chr "I") (chr ":") s = true.
Proof. intros H. apply strip_exact in H as ->. reflexivity. Qed.

Lemma wifi_at_no_lead s :
  strip false (str "WIFI:T:") s = None -> wifi_at s = None.
Proof. intros H. unfold wifi_at, field. now rewrite H. Qed.

(** The Wi-Fi pattern cannot match the payload at any index but 0. *)
Lemma wifi_at_later config i :
  wifi_at (skipn (S i) (generateWiFiPayload config)) = None.
Proof.
  rewrite payload_split. apply wifi_at_no_lead.
  destruct i as [|[|[|j]]]; try reflexivity.
  change (skipn (S (S (S (S j)))) (str "WIFI" ++ payload_tail config))
    with (skipn j (payload_tail config)).
  destruct (strip false (str "WIFI:T:") (skipn j (payload_tail config)))
    eqn:S; auto.
  apply strip_wifi_pair, has_pair_skipn in S.
  rewrite payload_tail_no_pair in S. discriminate.
Qed.

Lemma has_semicolon s :
  forallb not_semi s = false ->
  exists a b, s = a ++ chr ";" :: b /\ forallb not_semi a = true.
Proof.
  intros H. exists (take_while not_semi s).
  destruct (drop_while not_semi s) as [|x b] eqn:D.
  - apply drop_while_nil in D. congruence.
  - exists b. pose proof (drop_while_head _ _ D) as X.
    unfold not_semi in X. apply negb_false_iff, N.eqb_eq in X. subst x.
    rewrite <- D, take_drop_while, take_while_all. auto.
Qed.

(** After an escaped semicolon no lead-in of the pattern can follow. *)
Lemma strip_after_escaped_semicolon c b r :
  escaped_char c = false ->
  strip false [c; chr ":"] (escapeWiFiString b ++ chr ";" :: r) = None.
Proof.
  intros C. destruct (escaped_backslash _ C) as [C1 C2].
  destruct b as [|x t].
  - change (escapeWiFiString []) with (@nil code_unit).
    cbn [app strip]. unfold same_char. rewrite N.eqb_sym, C2. reflexivity.
  - rewrite escape_cons. unfold escape_char.
    destruct (escaped_char x) eqn:X; cbn [app strip]; unfold same_char.
    + now rewrite N.eqb_sym, C1.
    + destruct (N.eqb x c); [|reflexivity].
      assert (H : head_is (chr ":") (escapeWiFiString t ++ chr ";" :: r)
                  = false)
        by (apply head_escape_then; [reflexivity | discriminate | reflexivity]).
      destruct (escapeWiFiString t ++ chr ";" :: r); [reflexivity|].
      cbn [head_is] in H. now rewrite H.
Qed.

Lemma field_escaped_semicolon lead c a b r :
  forallb not_semi a = true -> escaped_char c = false ->
  match field lead (lead ++ escapeWiFiString (a ++ chr ";" :: b)
                         ++ chr ";" :: r) with
  | Some (_, s') => field [chr ";"; c; chr ":"] s' = None
  | None => True
  end.
Proof.
  intros A C. rewrite escape_app, escape_cons.
  change (escape_char (chr ";")) with [backslash; chr ";"].
  replace ((escapeWiFiString a ++ [backslash; chr ";"] ++ escapeWiFiString b)
           ++ chr ";" :: r)
    with ((escapeWiFiString a ++ [backslash])
          ++ chr ";" :: escapeWiFiString b ++ chr ";" :: r)
    by (rewrite <- !app_assoc; reflexivity).
  rewrite field_intro.
  - unfold field.
    change [chr ";"; c; chr ":"] with ([chr ";"] ++ [c; chr ":"]).
    rewrite strip_app.
    change (strip false [chr ";"] (chr ";" :: ?x)) with (Some x).
    cbv iota beta. now rewrite strip_after_escaped_semicolon.
  - rewrite forallb_app, (not_semi_escape _ A). reflexivity.
Qed.

Lemma wifi_at_payload_semicolon config :
  forallb not_semi (Wifi.ssid config)
  && forallb not_semi (Wifi.password config) = false ->
  wifi_at (generateWiFiPayload config) = None.
Proof.
  intros H. unfold generateWiFiPayload, wifi_at. cbv zeta.
  change (str ";S:" ++ ?x) with (chr ";" :: str "S:" ++ x) at 1.
  rewrite field_intro by (destruct (Wifi.security config); reflexivity).
  change (chr ";" :: str "S:" ++ ?x) with (str ";S:" ++ x).
  destruct (forallb not_semi (Wifi.ssid config)) eqn:S.
  - cbn [andb] in H.
    change (str ";P:" ++ ?x) with (chr ";" :: str "P:" ++ x) at 1.
    rewrite field_intro by now apply not_semi_escape.
    change (chr ";" :: str "P:" ++ ?x) with (str ";P:" ++ x).
    apply has_semicolon in H as (a & b & -> & A).
    pose proof (@field_escaped_semicolon (str ";P:") (chr "H") a b
                  (str "H:" ++ (if Wifi.hidden config then str "true"
                                else str "false") ++ str ";;") A eq_refl) as F.
    change (chr ";" :: str "H:" ++ ?x) with (str ";H:" ++ x) in F.
    destruct (field (str ";P:") _) as [[g s']|]; [|reflexivity].
    change [chr ";"; chr "H"; chr ":"] with (str ";H:") in F.
    now rewrite F.
  - apply has_semicolon in S as (a & b & -> & A).
    pose proof (@field_escaped_semicolon (str ";S:") (chr "P") a b
                  (str "P:" ++ escapeWiFiString (Wifi.password config)
                   ++ str ";H:" ++ (if Wifi.hidden config then str "true"
                                    else str "false") ++ str ";;")
                  A eq_refl) as F.
    change (chr ";" :: str "P:" ++ ?x) with (str ";P:" ++ x) in F.
    destruct (field (str ";S:") _) as [[g s']|]; [|reflexivity].
    change [chr ";"; chr "P"; chr ":"] with (str ";P:") in F.
    now rewrite F.
Qed.

Lemma payload_wifi_prefix config :
  startsWith (generateWiFiPayload config) (str "WIFI:") = true.
Proof. reflexivity. Qed.

(** X15. The reader classifies the payload of a configuration as Wi-Fi
    exactly when neither the ssid nor the password holds a semicolon;
    otherwise the payload comes out as email or text, with no parsed
    fields. *)
Theorem payload_classified_wifi_iff (config : WiFiConfig) :
  (type (parseQRData (generateWiFiPayload config)) = wifi
   <-> forallb not_semi (Wifi.ssid config) = true
       /\ forallb not_semi (Wifi.password config) = true)
  /\ (type (parseQRData (generateWiFiPayload config)) <> wifi ->
      parsed (parseQRData (generateWiFiPayload config)) = None
      /\ (type (parseQRData (generateWiFiPayload config)) = email
          \/ type (parseQRData (generateWiFiPayload config)) = text)).
Proof.
  rewrite <- andb_true_iff.
  destruct (forallb not_semi (Wifi.ssid config)
            && forallb not_semi (Wifi.password config)) eqn:S.
  - apply andb_prop in S as [S1 S2].
    rewrite (parseQRData_wifi_shape (payload_shape config S1 S2)).
    cbn [type]. split; [tauto | congruence].
  - assert (N : match_ (generateWiFiPayload config) re_wifi = None).
    { apply search_wifi_nowhere. intros [|i].
      - now apply wifi_at_payload_semicolon.
      - apply wifi_at_later. }
    rewrite (parseQRData_wifi_prefix _ (payload_wifi_prefix config)), N.
    rewrite (after_wifi_wifi_prefix _ (payload_wifi_prefix config)).
    cbn [type parsed].
    destruct (email_test (generateWiFiPayload config));
      (split; [split; [discriminate | discriminate] | auto]).
Qed.

End PayloadClassified.

Section GeneratorProperties.

Variable parses : jsstring -> bool.
Variable generateQRCodePNG generateQRCodeSVG :
  jsstring -> Generator.QRCodeOptions -> option jsstring.

Lemma payload_truthy config : truthy (generateWiFiPayload config) = true.
Proof. reflexivity. Qed.

(** X16. [validateURL] accepts a text exactly when the text that
    [normalizeURL] makes of it parses as a URL, and on an accepted text
    [normalizeURL] applied twice is [normalizeURL] applied once. *)
Theorem validateURL_normalizeURL (url : jsstring) :
  Url.validateURL parses url = parses (Url.normalizeURL parses url)
  /\ (Url.validateURL parses url = true ->
      Url.normalizeURL parses (Url.normalizeURL parses url)
      = Url.normalizeURL parses url).
Proof.
  unfold Url.validateURL, Url.normalizeURL.
  destruct (parses url) eqn:P.
  - rewrite ?P. auto.
  - destruct (parses (str "http://" ++ url)) eqn:Q; rewrite ?P, ?Q;
      split; (congruence || auto).
Qed.

(** X17. With Wi-Fi input, [generateQRCode] leaves the state as it is when
    the configuration does not pass [validateWiFiConfig] (the images shown
    are never cleared), and renders the payload when it does: no other
    check stands in the way. *)
Theorem generateQRCode_wifi (state : Generator.QRState) :
  Generator.inputType state = Generator.wifi_input ->
  Generator.generateQRCode parses generateQRCodePNG generateQRCodeSVG state
  = if isValid (validateWiFiConfig (Generator.wifi state))
    then rendered generateQRCodePNG generateQRCodeSVG state (generateWiFiPayload (Generator.wifi state))
    else state.
Proof.
  intros T. unfold Generator.generateQRCode, Generator.getCurrentContent.
  cbv zeta. rewrite T.
  rewrite payload_truthy. cbn [negb Generator.is_link Generator.is_wifi andb].
  destruct (isValid (validateWiFiConfig (Generator.wifi state))) eqn:V.
  - destruct (valid_config_content _ V) as [_ ->]. reflexivity.
  - destruct (isValid (QRCode.validateQRContent _)); reflexivity.
Qed.

(** X18. With text input, [generateQRCode] clears both images when the
    text is empty, leaves the state as it is (images included) when the
    text is not empty but blank or longer than 2000 characters, and
    renders the text otherwise. *)
Theorem generateQRCode_text (state : Generator.QRState) :
  Generator.inputType state = Generator.text_input ->
  Generator.generateQRCode parses generateQRCodePNG generateQRCodeSVG state
  = match Generator.text state with
    | [] => Generator.with_images state None None
    | _ :: _ =>
        if forallb isWhiteSpace (Generator.text state)
           || (2000 <? List.length (Generator.text state))
        then state
        else rendered generateQRCodePNG generateQRCodeSVG state
                      (Generator.text state)
    end.
Proof.
  intros T. unfold Generator.generateQRCode, Generator.getCurrentContent.
  cbv zeta. rewrite T.
  destruct (Generator.text state) as [|x t] eqn:E; [reflexivity|].
  cbn [truthy negb Generator.is_link Generator.is_wifi andb].
  rewrite validateQRContent_valid, (Nat.leb_antisym 2000).
  destruct (forallb isWhiteSpace (x :: t)) eqn:W.
  - apply trim_nil in W. rewrite W. reflexivity.
  - assert (N : truthy (trim (x :: t)) = true).
    { apply truthy_true. intros H. apply trim_nil in H. congruence. }
    rewrite N. cbn [andb orb].
    destruct (2000 <? List.length (x :: t)); reflexivity.
Qed.

(** X19. [generateQRCode] touches nothing but the two images and the
    busy flag; it never leaves the busy flag set if it was not set, and
    it keeps the two images in step: both absent or both present after,
    if so before. *)
Theorem generateQRCode_invariants (state : Generator.QRState) :
  let state' :=
    Generator.generateQRCode parses generateQRCodePNG generateQRCodeSVG
                             state in
  Generator.with_isGenerating
    (Generator.with_images state' (Generator.qrCodePNG state)
                           (Generator.qrCodeSVG state))
    (Generator.isGenerating state) = state
  /\ (Generator.isGenerating state = false ->
      Generator.isGenerating state' = false)
  /\ ((Generator.qrCodePNG state = None <-> Generator.qrCodeSVG state = None)
      -> (Generator.qrCodePNG state' = None
          <-> Generator.qrCodeSVG state' = None)).
Proof.
  destruct state as [ty ln tx wf op fn lg png svg busy sp].
  unfold Generator.generateQRCode. cbv zeta.
  set (content := Generator.getCurrentContent parses _).
  clearbody content.
  repeat match goal with
         | |- context [if ?b then _ else _] => destruct b
         | |- context [generateQRCodePNG ?c ?o] =>
             destruct (generateQRCodePNG c o)
         | |- context [generateQRCodeSVG ?c ?o] =>
             destruct (generateQRCodeSVG c o)
         end;
    cbn; intuition (auto; congruence).
Qed.

End GeneratorProperties.

Lemma validateURL_normalizeURL_witness :
  Url.validateURL sample_parses (str "example.com") = true
  /\ Url.normalizeURL sample_parses (str "example.com")
     = str "http://example.com"
  /\ Url.normalizeURL sample_parses (str "http://example.com")
     = str "http://example.com".
Proof.
  assert (V : Url.validateURL sample_parses (str "example.com") = true)
    by (vm_compute; reflexivity).
  pose proof (proj2 (validateURL_normalizeURL sample_parses
                       (str "example.com")) V) as H.
  split; [exact V|]. split; [vm_compute; reflexivity|].
  exact H.
Defined.

Lemma generateQRCode_wifi_witness :
  let st := Generator.mkQRState
              Generator.wifi_input [] []
              (mkWiFiConfig [] [] WPA false)
              (Generator.options sample_state) (str "qrcode") Generator.en
              (Some (str "old png")) (Some (str "old svg")) false false in
  Generator.inputType st = Generator.wifi_input
  /\ Generator.generateQRCode sample_parses (sample_render (str "png:"))
                              (sample_render (str "svg:")) st = st.
Proof.
  intros st. split; [reflexivity|].
  rewrite (generateQRCode_wifi sample_parses (sample_render (str "png:"))
             (sample_render (str "svg:")) st eq_refl).
  vm_compute. reflexivity.
Defined.

Lemma generateQRCode_text_witness :
  let st := Generator.mkQRState
              Generator.text_input [] (str "   ")
              (mkWiFiConfig [] [] WPA false)
              (Generator.options sample_state) (str "qrcode") Generator.en
              (Some (str "old png")) (Some (str "old svg")) false false in
  Generator.inputType st = Generator.text_input
  /\ Generator.generateQRCode sample_parses (sample_render (str "png:"))
                              (sample_render (str "svg:")) st = st.
Proof.
  intros st. split; [reflexivity|].
  rewrite (generateQRCode_text sample_parses (sample_render (str "png:"))
             (sample_render (str "svg:")) st eq_refl).
  vm_compute. reflexivity.
Defined.

Lemma generateQRCode_invariants_witness :
  let st' := Generator.generateQRCode
               sample_parses (sample_render (str "png:"))
               (sample_render (str "svg:"))
               (Generator.mkQRState
                  Generator.text_input [] (str "hello")
                  (mkWiFiConfig [] [] WPA false)
                  (Generator.options sample_state) (str "qrcode")
                  Generator.en None None false false) in
  Generator.isGenerating st' = false
  /\ Generator.qrCodePNG st' = Some (str "png:hello")
  /\ (Generator.qrCodePNG st' = None <-> Generator.qrCodeSVG st' = None).
Proof.
  intros st'.
  pose proof (generateQRCode_invariants
                sample_parses (sample_render (str "png:"))
                (sample_render (str "svg:"))
                (Generator.mkQRState
                   Generator.text_input [] (str "hello")
                   (mkWiFiConfig [] [] WPA false)
                   (Generator.options sample_state) (str "qrcode")
                   Generator.en None None false false)) as (_ & B & I).
  split; [exact (B eq_refl)|]. split; [vm_compute; reflexivity|].
  apply I. cbn. tauto.
Defined.

(** X20. [handleDownloadPNG] offers no download while there is no image;
    otherwise it offers the image under the name made of
    [sanitizeFilename] of the name field, or of "qrcode" when the field is
    empty, followed by .png: that base name holds no forbidden character
    and no white space, is "qrcode" for the empty field, and is empty
    exactly when the field is not empty and made of forbidden characters
    only. *)
Theorem handleDownloadPNG_name (state : Generator.QRState) :
  match Generator.qrCodePNG state with
  | Some png =>
      if truthy png then
        let base :=
          sanitizeFilename
            (match Generator.filename state with
             | [] => str "qrcode"
             | _ :: _ => Generator.filename state
             end) in
        Generator.handleDownloadPNG state
        = Some (Download.mkAnchor png (base ++ str ".png"))
        /\ forallb clean_char base = true
        /\ (Generator.filename state = [] -> base = str "qrcode")
        /\ (base = []
            <-> Generator.filename state <> []
                /\ forallb forbidden_char (Generator.filename state) = true)
      else Generator.handleDownloadPNG state = None
  | None => Generator.handleDownloadPNG state = None
  end.
Proof.
  unfold Generator.handleDownloadPNG.
  destruct (Generator.qrCodePNG state) as [png|]; [|reflexivity].
  destruct (truthy png); [|reflexivity]. cbv zeta.
  destruct (Generator.filename state) as [|x t]; cbn [orElse truthy].
  - split; [reflexivity|]. split; [apply sanitizeFilename_clean|].
    split; [intros _; vm_compute; reflexivity|].
    split; [vm_compute; discriminate | intros [N _]; congruence].
  - split; [reflexivity|]. split; [apply sanitizeFilename_clean|].
    split; [discriminate|].
    rewrite sanitizeFilename_nil. split; [split; [discriminate|] |]; tauto.
Qed.

Lemma handleDownloadPNG_name_witness :
  let st :=
    Generator.mkQRState
      Generator.text_input [] (str "hello") (mkWiFiConfig [] [] WPA false)
      (Generator.options sample_state) (str "my code: v2")
      Generator.en (Some (str "data:image/png;base64,AAAA")) None false
      false in
  Generator.handleDownloadPNG st
  = Some (Download.mkAnchor (str "data:image/png;base64,AAAA")
                            (sanitizeFilename (str "my code: v2")
                             ++ str ".png"))
  /\ sanitizeFilename (str "my code: v2") = str "my_code_v2".
Proof.
  intros st. split; [|vm_compute; reflexivity].
  pose proof (handleDownloadPNG_name st) as H.
  change (Generator.qrCodePNG st)
    with (Some (str "data:image/png;base64,AAAA")) in H.
  change (truthy (str "data:image/png;base64,AAAA")) with true in H.
  cbv iota zeta in H. destruct H as (E & _).
  exact E.
Defined.
